(** * The QEMU process bridge ([qemu_jni.c]) as a shallow embedding

    The bridge keeps a table of four supervised emulator processes and
    talks to the operating system through a handful of calls ([calloc],
    [fork], [execlp], [kill], [waitpid], [usleep], [fopen], ...).  The
    embedding threads an explicit [World] (handle table, file contents,
    log of system calls) through every operation; the operating system is
    an arbitrary function from the calls made so far and the call being
    made to the value that call returns.  Log output ([LOGI], [LOGE],
    [LOGD]) and the release of JNI strings are left out: no operation
    reads them back. *)

From Stdlib Require Import ZArith Lia String Ascii List Bool.
From stdpp Require Import base list strings gmap.

Open Scope string_scope.
Open Scope list_scope.
Open Scope Z_scope.

(** ** System calls and the world *)

Inductive signal : Type := SIGTERM | SIGKILL.

Inductive syscall : Type :=
| Calloc (nmemb size : Z)
| Free (slot : Z)
| Fork
| Execlp (file : string) (argv : list string)
| Exit_ (status : Z)
| Kill (pid : Z) (sig : signal)
| Waitpid (pid : Z) (options : Z)
| Usleep (usec : Z)
| Fopen (path mode : string)
| Fwrite (stream : string) (data : list Z)
| Fclose (stream : string)
| Write (stream : string) (data : list Z).

(** One entry of the log: the call and the value it returned. *)
Definition event : Type := syscall * Z.

(** The operating system: what a call returns, given everything that
    happened before it. *)
Definition OS : Type := list event -> syscall -> Z.

(** [typedef struct { pid_t pid; int running; char data_dir[512];
    char pid_file[512]; char log_file[512]; } QemuHandle;] *)
Record QemuHandle : Type := mkHandle {
  pid : Z;
  running : Z;
  data_dir : list Z;
  pid_file : list Z;
  log_file : list Z
}.

Definition MAX_HANDLES : Z := 4.
Definition sizeof_QemuHandle : Z := 4 + 4 + 512 + 512 + 512.
Definition WNOHANG : Z := 1.

(** What [calloc(1, sizeof(QemuHandle))] hands back: every byte zero. *)
Definition zeroed_handle : QemuHandle :=
  mkHandle 0 0 (replicate 512 0) (replicate 512 0) (replicate 512 0).

(** [static QemuHandle* handles[MAX_HANDLES] = {NULL};]  A slot is [None]
    for [NULL] and [Some h] for a pointer to the record [h]; every record
    is reachable through its slot only. *)
Record World : Type := mkWorld {
  handles : list (option QemuHandle);
  files : gmap string (list Z);
  trace : list event
}.

Definition empty_table : list (option QemuHandle) := replicate 4 None.
Definition initial_world : World := mkWorld empty_table ∅ [].

Definition wf_table (tbl : list (option QemuHandle)) : Prop :=
  length tbl = Z.to_nat MAX_HANDLES.

(** ** The monad of bridge operations

    A call either returns to its caller, or never does: [execlp] replaces
    the process image, [_exit] ends the process. *)

Inductive Outcome (A : Type) : Type :=
| Returns (a : A)
| ImageReplaced
| ProcessExited (status : Z).
Arguments Returns {A} a.
Arguments ImageReplaced {A}.
Arguments ProcessExited {A} status.

Definition M (A : Type) : Type := OS -> World -> Outcome A * World.

Definition ret {A} (a : A) : M A := fun _ w => (Returns a, w).

Definition bind {A B} (m : M A) (k : A -> M B) : M B :=
  fun os w =>
    match m os w with
    | (Returns a, w') => k a os w'
    | (ImageReplaced, w') => (ImageReplaced, w')
    | (ProcessExited s, w') => (ProcessExited s, w')
    end.

Declare Scope bridge_scope.
Delimit Scope bridge_scope with bridge.
Bind Scope bridge_scope with M.
Notation "x <- c1 ;; c2" := (bind c1 (fun x => c2))
  (at level 100, c1 at next level, right associativity) : bridge_scope.
Notation "c1 ;; c2" := (bind c1 (fun _ => c2))
  (at level 100, right associativity) : bridge_scope.
Open Scope bridge_scope.

Definition log_event (e : event) (w : World) : World :=
  mkWorld (handles w) (files w) (trace w ++ [e]).

Definition set_handles (tbl : list (option QemuHandle)) (w : World) : World :=
  mkWorld tbl (files w) (trace w).

Definition set_files (fs : gmap string (list Z)) (w : World) : World :=
  mkWorld (handles w) fs (trace w).

(** A system call that returns: ask the operating system, log the answer. *)
Definition sys (c : syscall) : M Z :=
  fun os w => let r := os (trace w) c in (Returns r, log_event (c, r) w).

Definition get_table : M (list (option QemuHandle)) :=
  fun _ w => (Returns (handles w), w).

Definition put_table (tbl : list (option QemuHandle)) : M unit :=
  fun _ w => (Returns tt, set_handles tbl w).

(** [execlp] returns (with -1) only when it fails. *)
Definition execlp (file : string) (argv : list string) : M Z :=
  fun os w =>
    let r := os (trace w) (Execlp file argv) in
    let w' := log_event (Execlp file argv, r) w in
    if r =? -1 then (Returns r, w') else (ImageReplaced, w').

(** [_exit] never returns. *)
Definition _exit {A} (status : Z) : M A :=
  fun _ w => (ProcessExited status, log_event (Exit_ status, 0) w).

(** ** The handle table *)

(** [handles[i]] *)
Definition slot (tbl : list (option QemuHandle)) (i : Z) : option QemuHandle :=
  mjoin (tbl !! Z.to_nat i).

(** [handles[i] = p] *)
Definition set_slot (i : Z) (p : option QemuHandle) : M unit :=
  tbl <- get_table ;; put_table (<[Z.to_nat i := p]> tbl).

Definition get_handle (tbl : list (option QemuHandle)) (handle_id : Z)
  : option QemuHandle :=
  if (0 <=? handle_id) && (handle_id <? MAX_HANDLES)
  then slot tbl handle_id
  else None.

(** The loop of [allocate_handle], with [n] iterations left and the loop
    variable at [i]. *)
Fixpoint allocate_handle_loop (n : nat) (i : Z) : M Z :=
  match n with
  | O => ret (-1)
  | S n' =>
      tbl <- get_table ;;
      match slot tbl i with
      | None =>
          p <- sys (Calloc 1 sizeof_QemuHandle) ;;
          if p =? 0
          then allocate_handle_loop n' (i + 1)
          else set_slot i (Some zeroed_handle) ;; ret i
      | Some _ => allocate_handle_loop n' (i + 1)
      end
  end.

Definition allocate_handle : M Z :=
  allocate_handle_loop (Z.to_nat MAX_HANDLES) 0.

Definition free_handle (handle_id : Z) : M unit :=
  tbl <- get_table ;;
  if (0 <=? handle_id) && (handle_id <? MAX_HANDLES)
     && bool_decide (is_Some (slot tbl handle_id))
  then sys (Free handle_id) ;; set_slot handle_id None
  else ret tt.

(** [handle->pid = p] and [handle->running = r], for the record in slot
    [handle_id]. *)
Definition store_pid (handle_id p : Z) : M unit :=
  tbl <- get_table ;;
  match slot tbl handle_id with
  | Some h =>
      set_slot handle_id
        (Some (mkHandle p (running h) (data_dir h) (pid_file h) (log_file h)))
  | None => ret tt
  end.

Definition store_running (handle_id r : Z) : M unit :=
  tbl <- get_table ;;
  match slot tbl handle_id with
  | Some h =>
      set_slot handle_id
        (Some (mkHandle (pid h) r (data_dir h) (pid_file h) (log_file h)))
  | None => ret tt
  end.

(** ** Text formatting: [snprintf] with ["%d"] and ["%s"] *)

(** [snprintf(buf, size, ...)] keeps at most [size - 1] bytes of the
    formatted text. *)
Definition snprintf (size : nat) (text : string) : string :=
  substring 0 (size - 1) text.

Definition digit_char (d : Z) : ascii := ascii_of_nat (48 + Z.to_nat d).

(** Decimal digits of [n], most significant first, in front of [acc]; at
    most [fuel] digits (a 32-bit magnitude has at most ten). *)
Fixpoint fmt_u (fuel : nat) (n : Z) (acc : string) : string :=
  match fuel with
  | O => acc
  | S fuel' =>
      let acc' := String (digit_char (n mod 10)) acc in
      if n / 10 =? 0 then acc' else fmt_u fuel' (n / 10) acc'
  end.

(** ["%d"] applied to a 32-bit [int]. *)
Definition fmt_d (n : Z) : string :=
  if n <? 0 then String "-"%char (fmt_u 10 (- n) "") else fmt_u 10 n "".

(** ** Create Disk Image *)

(** [header[i] = v] on an [unsigned char] array. *)
Definition store_byte (i : Z) (v : Z) (buf : list Z) : list Z :=
  <[Z.to_nat i := v mod 256]> buf.

(** [(uint64_t)size_mb * 1024 * 1024], every step modulo [2^64]. *)
Definition size_bytes_of (size_mb : Z) : Z :=
  (((size_mb mod 2 ^ 64) * 1024) mod 2 ^ 64 * 1024) mod 2 ^ 64.

(** [(size_bytes >> (56 - i * 8)) & 0xFF] *)
Definition size_byte (size_bytes i : Z) : Z :=
  Z.land (Z.shiftr size_bytes (56 - i * 8)) 255.

(** [for (int i = 0; i < 8; i++) header[24 + i] = ...], with [n]
    iterations left. *)
Fixpoint fill_size (n : nat) (i : Z) (size_bytes : Z) (header : list Z)
  : list Z :=
  match n with
  | O => header
  | S n' =>
      fill_size n' (i + 1) size_bytes
        (store_byte (24 + i) (size_byte size_bytes i) header)
  end.

Definition qcow2_header (size_mb : Z) : list Z :=
  let header := replicate 512 0 in
  let header := store_byte 0 81 header in      (* 'Q' *)
  let header := store_byte 1 70 header in      (* 'F' *)
  let header := store_byte 2 73 header in      (* 'I' *)
  let header := store_byte 3 251 header in     (* 0xFB *)
  let header := store_byte 4 0 header in
  let header := store_byte 5 0 header in
  let header := store_byte 6 0 header in
  let header := store_byte 7 3 header in
  let size_bytes := size_bytes_of size_mb in
  let header := fill_size 8 0 size_bytes header in
  let header := store_byte 20 0 header in
  let header := store_byte 21 0 header in
  let header := store_byte 22 0 header in
  let header := store_byte 23 16 header in
  header.

(** [FILE]: an open stream, with the file behind it and the bytes the
    stream holds back until it is flushed. *)
Record FILE : Type := mkFILE {
  stream_path : string;
  stream_buffer : list Z
}.

(** [fopen(path, "wb")]: [NULL] when the operating system refuses,
    otherwise the file exists, is empty, and the stream writes to it. *)
Definition fopen (path mode : string) : M (option FILE) :=
  fun os w =>
    let r := os (trace w) (Fopen path mode) in
    let w' := log_event (Fopen path mode, r) w in
    if r =? 0 then (Returns None, w')
    else (Returns (Some (mkFILE path [])),
          set_files (<[path := []]> (files w')) w').

(** [fwrite(data, 1, length data, fp)]: what the call returns is the
    number of bytes the stream took, all of them or fewer.  The stream
    holds them back (nothing makes it unbuffered, and the code writes less
    than a buffer's worth); the value is the count and the stream after
    the call. *)
Definition fwrite (data : list Z) (fp : FILE) : M (Z * FILE) :=
  fun os w =>
    let r := os (trace w) (Fwrite (stream_path fp) data) in
    (Returns (r, mkFILE (stream_path fp)
                   (stream_buffer fp ++ take (Z.to_nat r) data)),
     log_event (Fwrite (stream_path fp) data, r) w).

(** The write that empties the stream: none when it holds nothing back,
    otherwise the operating system reports how many bytes it wrote. *)
Definition flush (fp : FILE) : M Z :=
  match stream_buffer fp with
  | [] => ret 0
  | _ :: _ => sys (Write (stream_path fp) (stream_buffer fp))
  end.

Definition append_file (path : string) (bytes : list Z) : M unit :=
  fun _ w =>
    (Returns tt,
     set_files (<[path := default [] (files w !! path) ++ bytes]> (files w)) w).

(** [fclose(fp)]: the bytes held back are written out and the file is
    closed.  When the call returns 0 they have all reached the file;
    when it does not, as many have as the write reported. *)
Definition fclose (fp : FILE) : M Z :=
  n <- flush fp ;;
  c <- sys (Fclose (stream_path fp)) ;;
  append_file (stream_path fp)
    (if c =? 0 then stream_buffer fp
     else take (Z.to_nat n) (stream_buffer fp)) ;;
  ret c.

(** [path] is what [GetStringUTFChars] returned for the Java string:
    [None] for [NULL]. *)
Definition Java_com_dockerandroid_app_qemu_QemuModule_nativeCreateDisk (path : option string) (size_mb : Z) : M bool :=
  match path with
  | None => ret false
  | Some disk_path =>
      fp <- fopen disk_path "wb" ;;
      match fp with
      | None => ret false
      | Some fp =>
          written <- fwrite (qcow2_header size_mb) fp ;;
          fclose (snd written) ;;
          ret true
      end
  end.

Abbreviation nativeCreateDisk := Java_com_dockerandroid_app_qemu_QemuModule_nativeCreateDisk.

(** ** Start Process *)

(** The value of a [jlong] variable: a local that was never assigned
    holds no determinate value. *)
Inductive jlong_value : Type :=
| Indeterminate
| JLong (v : Z).

(** The arguments handed to [execlp] after the file to run: [argv[0]] and
    the emulator's options. *)
Definition qemu_argv (binary iso port_str : string) (ram_mb cpu_cores : Z)
  : list string :=
  let ram_arg := snprintf 32 (fmt_d ram_mb +:+ "M") in
  let smp_arg := snprintf 32 (fmt_d cpu_cores) in
  let netdev_arg := snprintf 512 ("user,id=net0," +:+ port_str) in
  [ binary;
    "-machine"; "q35";
    "-cpu"; "max";
    "-smp"; smp_arg;
    "-m"; ram_arg;
    "-cdrom"; iso;
    "-drive"; "file=%s,format=qcow2,if=virtio";
    "-boot"; "d";
    "-netdev"; netdev_arg;
    "-device"; "virtio-net-pci,netdev=net0";
    "-display"; "none";
    "-nographic" ].

(** The four string arguments are what [GetStringUTFChars] returned.
    When one of them is [NULL] the code jumps to [cleanup] over the
    declaration [jlong handle_id = allocate_handle();] and returns
    [handle_id], which was never assigned. *)
Definition Java_com_dockerandroid_app_qemu_QemuModule_nativeStart (qemu_binary iso_path disk_path : option string)
    (ram_mb cpu_cores : Z) (ports : option string) : M jlong_value :=
  match qemu_binary, iso_path, disk_path, ports with
  | Some binary, Some iso, Some disk, Some port_str =>
      handle_id <- allocate_handle ;;
      if handle_id <? 0 then ret (JLong handle_id)
      else
        pid <- sys Fork ;;
        if pid <? 0 then
          free_handle handle_id ;;
          ret (JLong (-1))
        else if pid =? 0 then
          execlp binary (qemu_argv binary iso port_str ram_mb cpu_cores) ;;
          _exit 1
        else
          store_pid handle_id pid ;;
          store_running handle_id 1 ;;
          ret (JLong handle_id)
  | _, _, _, _ => ret Indeterminate
  end.

Abbreviation nativeStart := Java_com_dockerandroid_app_qemu_QemuModule_nativeStart.

(** ** Stop Process *)

(** The polling loop of [nativeStop], with [n] iterations left.  [true]:
    the exit was seen and the function has returned [JNI_TRUE]; [false]:
    the loop ran out. *)
Fixpoint stop_poll (n : nat) (handle_id : Z) (p : Z) : M bool :=
  match n with
  | O => ret false
  | S n' =>
      result <- sys (Waitpid p WNOHANG) ;;
      if result =? p then
        store_running handle_id 0 ;;
        ret true
      else
        sys (Usleep 100000) ;;
        stop_poll n' handle_id p
  end.

Definition Java_com_dockerandroid_app_qemu_QemuModule_nativeStop (handle_id : Z) : M bool :=
  tbl <- get_table ;;
  match get_handle tbl handle_id with
  | None => ret false
  | Some handle =>
      if running handle =? 0 then ret true
      else
        r <- sys (Kill (pid handle) SIGTERM) ;;
        exited <- (if r =? 0 then stop_poll 50 handle_id (pid handle)
                   else ret false) ;;
        if (exited : bool) then ret true
        else
          sys (Kill (pid handle) SIGKILL) ;;
          sys (Waitpid (pid handle) 0) ;;
          store_running handle_id 0 ;;
          ret true
  end.

Abbreviation nativeStop := Java_com_dockerandroid_app_qemu_QemuModule_nativeStop.

(** ** Get Status *)

Definition Java_com_dockerandroid_app_qemu_QemuModule_nativeGetStatus (handle_id : Z) : M Z :=
  tbl <- get_table ;;
  match get_handle tbl handle_id with
  | None => ret (-1)
  | Some handle =>
      if running handle =? 0 then ret 0
      else
        result <- sys (Waitpid (pid handle) WNOHANG) ;;
        if result =? 0 then ret 1
        else if result =? pid handle then
          store_running handle_id 0 ;;
          ret 0
        else ret (-1)
  end.

Abbreviation nativeGetStatus := Java_com_dockerandroid_app_qemu_QemuModule_nativeGetStatus.

(** ** Cleanup *)

Definition Java_com_dockerandroid_app_qemu_QemuModule_nativeCleanup (handle_id : Z) : M unit :=
  tbl <- get_table ;;
  match get_handle tbl handle_id with
  | None => ret tt
  | Some handle =>
      (if running handle =? 0 then ret tt
       else
         sys (Kill (pid handle) SIGKILL) ;;
         sys (Waitpid (pid handle) 0) ;;
         ret tt) ;;
      free_handle handle_id
  end.

Abbreviation nativeCleanup := Java_com_dockerandroid_app_qemu_QemuModule_nativeCleanup.

(** ** Unload hook *)

(** The loop of [JNI_OnUnload], with [n] iterations left and the loop
    variable at [i]: [kill] without a wait for a record marked running,
    then [free(handles[i]); handles[i] = NULL;]. *)
Fixpoint unload_loop (n : nat) (i : Z) : M unit :=
  match n with
  | O => ret tt
  | S n' =>
      tbl <- get_table ;;
      match slot tbl i with
      | Some h =>
          (if running h =? 0 then ret tt
           else sys (Kill (pid h) SIGKILL) ;; ret tt) ;;
          sys (Free i) ;;
          set_slot i None ;;
          unload_loop n' (i + 1)
      | None => unload_loop n' (i + 1)
      end
  end.

Definition JNI_OnUnload : M unit :=
  unload_loop (Z.to_nat MAX_HANDLES) 0.

(** * Vocabulary of the properties

    Definitions used to state what the operations do: shapes of the log,
    the argument vector and the header as the specification words them,
    and the concrete operating systems and worlds of the worked
    instances. *)

(** The record in slot [handle_id], marked not running. *)
Definition stopped (h : QemuHandle) : QemuHandle :=
  mkHandle (pid h) 0 (data_dir h) (pid_file h) (log_file h).

Definition mark_stopped (handle_id : Z) (h : QemuHandle) (w : World) : World :=
  set_handles (<[Z.to_nat handle_id := Some (stopped h)]> (handles w)) w.

(** [k] polls in a row that did not see the exit of process [p], each
    followed by the 100 ms sleep. *)
Inductive failed_polls (p : Z) : nat -> list event -> Prop :=
| failed_polls_O : failed_polls p 0 []
| failed_polls_S k r u t :
    r <> p ->
    failed_polls p k t ->
    failed_polls p (S k)
      ((Waitpid p WNOHANG, r) :: (Usleep 100000, u) :: t).

(** The forced termination signal does not occur in a log. *)
Definition no_sigkill (t : list event) : Prop :=
  forall q r, ~ In (Kill q SIGKILL, r) t.

(** What Stop Process does to a record that is marked running: the log
    grows by the graceful signal and then by one of three shapes. *)
Definition stop_shape (p r0 : Z) (t : list event) : Prop :=
  (r0 = 0 /\
   exists k polls,
     (k < 50)%nat /\ failed_polls p k polls /\
     t = polls ++ [(Waitpid p WNOHANG, p)])
  \/
  (r0 = 0 /\
   exists polls r1 r2,
     failed_polls p 50 polls /\
     t = polls ++ [(Kill p SIGKILL, r1); (Waitpid p 0, r2)])
  \/
  (r0 <> 0 /\
   exists r1 r2, t = [(Kill p SIGKILL, r1); (Waitpid p 0, r2)]).

Definition calloc_handle : syscall := Calloc 1 sizeof_QemuHandle.

(** Number of empty slots among the [n] slots from index [i] on. *)
Fixpoint count_empty (n : nat) (i : Z) (tbl : list (option QemuHandle)) : nat :=
  match n with
  | O => 0
  | S n' =>
      (match slot tbl i with None => 1 | Some _ => 0 end
       + count_empty n' (i + 1) tbl)%nat
  end.

Definition occupied (tbl : list (option QemuHandle)) (lo hi : Z) : Prop :=
  forall j, lo <= j < hi -> slot tbl j <> None.

(** What follows the allocation of slot [r] in a world [w1]: the fork and
    its three ways on. *)
Definition after_fork (binary iso port_str : string) (ram_mb cpu_cores : Z)
    (r : Z) : M jlong_value :=
  pid <- sys Fork ;;
  if pid <? 0 then
    free_handle r ;;
    ret (JLong (-1))
  else if pid =? 0 then
    execlp binary (qemu_argv binary iso port_str ram_mb cpu_cores) ;;
    _exit 1
  else
    store_pid r pid ;;
    store_running r 1 ;;
    ret (JLong r).

(** The record of a process that was just started: zeroed by the
    allocation, then [pid] and [running = 1]. *)
Definition started (p : Z) : QemuHandle :=
  mkHandle p 1 (data_dir zeroed_handle) (pid_file zeroed_handle)
    (log_file zeroed_handle).

(** The arguments of a Start Process call whose four strings could all be
    obtained. *)
Record StartArgs : Type := mkStartArgs {
  arg_binary : string;
  arg_iso : string;
  arg_disk : string;
  arg_ram_mb : Z;
  arg_cpu_cores : Z;
  arg_ports : string
}.

Definition start (a : StartArgs) : M jlong_value :=
  nativeStart (Some (arg_binary a)) (Some (arg_iso a)) (Some (arg_disk a))
    (arg_ram_mb a) (arg_cpu_cores a) (Some (arg_ports a)).

(** The allocator grants every request and every fork succeeds, in the
    parent. *)
Definition os_level_success (os : OS) : Prop :=
  (forall t, os t calloc_handle <> 0) /\ (forall t, 0 < os t Fork).

(** An allocator that never grants storage, and one that refuses the first
    request only. *)
Definition os_no_memory : OS :=
  fun _ c => match c with Calloc _ _ => 0 | _ => 1 end.

Definition os_first_calloc_fails : OS :=
  fun t c =>
    match c, t with
    | Calloc _ _, [] => 0
    | _, _ => 1
    end.

(** The argument vector of the specification, for a given port-forwarding
    text: the program name, then the options in their fixed order. *)
Definition spec_argv (binary iso port_spec : string) (ram_mb cpu_cores : Z)
  : list string :=
  [ binary;
    "-machine"; "q35";
    "-cpu"; "max";
    "-smp"; fmt_d cpu_cores;
    "-m"; fmt_d ram_mb +:+ "M";
    "-cdrom"; iso;
    "-drive"; "file=%s,format=qcow2,if=virtio";
    "-boot"; "d";
    "-netdev"; "user,id=net0," +:+ port_spec;
    "-device"; "virtio-net-pci,netdev=net0";
    "-display"; "none";
    "-nographic" ].

(** The number a decimal numeral denotes: digits read left to right, with
    an optional leading minus sign. *)
Definition digit_value (c : ascii) : Z := Z.of_nat (nat_of_ascii c) - 48.

Fixpoint read_u (s : string) (acc : Z) : Z :=
  match s with
  | EmptyString => acc
  | String c s' => read_u s' (acc * 10 + digit_value c)
  end.

Definition starts_with_minus (s : string) : bool :=
  match s with
  | String c _ => if ascii_dec c "-"%char then true else false
  | EmptyString => false
  end.

Definition read_d (s : string) : Z :=
  match s with
  | String c s' => if ascii_dec c "-"%char then - read_u s' 0 else read_u s 0
  | EmptyString => 0
  end.

(** The [execlp] calls in a log: file and argument vector. *)
Definition exec_calls (t : list event) : list (string * list string) :=
  flat_map (fun e => match fst e with
                     | Execlp file argv => [(file, argv)]
                     | _ => []
                     end) t.

(** An operating system under which every fork continues in the child. *)
Definition os_child : OS :=
  fun _ c => match c with Fork => 0 | _ => 1 end.

(** A port-forwarding text of 499 bytes. *)
Definition long_ports : string := string_of_list_ascii (repeat "a"%char 499).

(** The [n]-byte big-endian encoding of [v]: its base-256 digits, most
    significant first (for a negative [v], those of its two's-complement
    form). *)
Fixpoint be_bytes (n : nat) (v : Z) : list Z :=
  match n with
  | O => []
  | S n' => (v / 256 ^ Z.of_nat n') mod 256 :: be_bytes n' v
  end.

(** The unsigned number that a big-endian byte string encodes. *)
Fixpoint be_value (bs : list Z) : Z :=
  match bs with
  | [] => 0
  | b :: bs' => b * 256 ^ Z.of_nat (length bs') + be_value bs'
  end.

(** The header of the specification: magic, version 3, twelve zero bytes,
    cluster bits 16, the size in bytes, zeros up to 512. *)
Definition spec_header (size_mb : Z) : list Z :=
  [81; 70; 73; 251] ++ [0; 0; 0; 3] ++ replicate 12 0 ++ [0; 0; 0; 16]
  ++ be_bytes 8 (size_mb * 1048576) ++ replicate 480 0.

(** A table with one running process in slot 0. *)
Definition demo_handle : QemuHandle := started 4242.

Definition demo_world : World :=
  mkWorld [Some demo_handle; None; None; None] ∅ [].

(** The graceful signal is delivered, and the third poll sees the exit. *)
Definition os_exit_at_third_poll : OS :=
  fun t c =>
    match c with
    | Waitpid p _ => if (length t <? 5)%nat then 0 else p
    | _ => 0
    end.

(** The allocator grants, the fork succeeds in the parent. *)
Definition os_granting : OS :=
  fun t c =>
    match c with
    | Calloc _ _ => 1
    | Fork => 100 + Z.of_nat (length t)
    | _ => 0
    end.

(** The allocator grants, the fork fails. *)
Definition os_fork_fails : OS :=
  fun _ c =>
    match c with
    | Fork => -1
    | _ => 1
    end.

Definition demo_args : StartArgs :=
  mkStartArgs "/data/qemu-system-x86_64" "/data/alpine.iso" "/data/disk.qcow2"
    2048 2 "hostfwd=tcp::2375-:2375".

(** The process in slot 0 has exited: the first Get Status sees it, the
    second answers from the record. *)
Definition os_exited : OS :=
  fun _ c => match c with Waitpid p _ => p | _ => 0 end.

(** Every file can be opened, every write takes all it is given, every
    close succeeds. *)
Definition os_disk_ok : OS :=
  fun _ c =>
    match c with
    | Fwrite _ data => Z.of_nat (length data)
    | Write _ data => Z.of_nat (length data)
    | Fclose _ => 0
    | _ => 1
    end.


(** ** Vocabulary of the further properties *)

(** Every record marked running carries the process id of a child: a
    positive number. *)
Definition pids_positive (tbl : list (option QemuHandle)) : Prop :=
  forall j h, 0 <= j -> slot tbl j = Some h -> running h <> 0 -> 0 < pid h.

(** Every signal in a log went to a single process: a positive id. *)
Definition kills_positive (t : list event) : Prop :=
  forall q s r, In (Kill q s, r) t -> 0 < q.

Definition bridge_inv (w : World) : Prop :=
  wf_table (handles w) /\ pids_positive (handles w) /\ kills_positive (trace w).

(** Microseconds asked of [usleep] in a log. *)
Fixpoint slept (t : list event) : Z :=
  match t with
  | [] => 0
  | (Usleep usec, _) :: t' => usec + slept t'
  | _ :: t' => slept t'
  end.

(** A call of the bridge by its user, with the strings as
    [GetStringUTFChars] returns them. *)
Inductive api_call : Type :=
| CallCreateDisk (path : option string) (size_mb : Z)
| CallStart (qemu_binary iso_path disk_path : option string)
    (ram_mb cpu_cores : Z) (ports : option string)
| CallStop (handle_id : Z)
| CallGetStatus (handle_id : Z)
| CallCleanup (handle_id : Z)
| CallUnload.

Definition call (c : api_call) : M unit :=
  match c with
  | CallCreateDisk path size_mb => nativeCreateDisk path size_mb ;; ret tt
  | CallStart b i d ram cores ports => nativeStart b i d ram cores ports ;; ret tt
  | CallStop handle_id => nativeStop handle_id ;; ret tt
  | CallGetStatus handle_id => nativeGetStatus handle_id ;; ret tt
  | CallCleanup handle_id => nativeCleanup handle_id
  | CallUnload => JNI_OnUnload
  end.

(** Calls made one after the other, for as long as the process goes on. *)
Fixpoint run_calls (cs : list api_call) : M unit :=
  match cs with
  | [] => ret tt
  | c :: cs' => call c ;; run_calls cs'
  end.

(** A full table: four processes, the third one stopped. *)
Definition full_world : World :=
  mkWorld [Some (started 11); Some (started 12); Some (stopped (started 13));
           Some (started 14)] ∅ [].

(** The file cannot be opened. *)
Definition os_no_files : OS := fun _ _ => 0.

(** What the sweep may log for the slots [lo, hi) of a table: the release
    of an occupied slot, or the forced signal to a record marked running. *)
Definition sweep_call (tbl : list (option QemuHandle)) (lo hi : Z) (c : syscall)
  : Prop :=
  (exists j h, lo <= j < hi /\ slot tbl j = Some h /\ c = Free j)
  \/
  (exists j h, lo <= j < hi /\ slot tbl j = Some h /\ running h <> 0
               /\ c = Kill (pid h) SIGKILL).

(** No signal occurs in a log. *)
Definition no_kill (t : list event) : Prop :=
  forall q s r, ~ In (Kill q s, r) t.

(** What a call may do to the world besides logging: nothing, or mark the
    running record of its handle as stopped. *)
Definition marks_at_most (handle_id : Z) (w w' : World) : Prop :=
  files w' = files w /\
  (handles w' = handles w
   \/
   exists h, get_handle (handles w) handle_id = Some h /\ running h <> 0 /\
             handles w' = <[Z.to_nat handle_id := Some (stopped h)]> (handles w)).

(** The calls Stop Process may make for process [p]. *)
Definition stop_call (p : Z) (c : syscall) : Prop :=
  c = Kill p SIGTERM \/ c = Kill p SIGKILL \/
  c = Waitpid p WNOHANG \/ c = Waitpid p 0 \/ c = Usleep 100000.

(** A session: disk image, two starts, a status query, a stop, a cleanup
    of a stale id, a cleanup, the unload. *)
Definition demo_session : list api_call :=
  [ CallCreateDisk (Some "/data/disk.qcow2") 1024;
    CallStart (Some "/data/qemu") (Some "/data/alpine.iso")
      (Some "/data/disk.qcow2") 2048 2 (Some "hostfwd=tcp::2375-:2375");
    CallStart (Some "/data/qemu") None (Some "/data/disk.qcow2") 512 1 (Some "");
    CallGetStatus 0;
    CallStop 0;
    CallCleanup 3;
    CallCleanup 0;
    CallUnload ].

(** * Properties *)

(** ** The handle table: reading and writing slots *)

Lemma get_handle_slot tbl handle_id h :
  get_handle tbl handle_id = Some h ->
  0 <= handle_id < MAX_HANDLES /\ slot tbl handle_id = Some h.
Proof.
  unfold get_handle.
  destruct (0 <=? handle_id) eqn:Hlo; destruct (handle_id <? MAX_HANDLES) eqn:Hhi;
    simpl; try discriminate.
  intros Hs. split; [lia | exact Hs].
Qed.

Lemma get_handle_None tbl handle_id :
  get_handle tbl handle_id = None <->
  handle_id < 0 \/ MAX_HANDLES <= handle_id \/ slot tbl handle_id = None.
Proof.
  unfold get_handle.
  destruct (0 <=? handle_id) eqn:Hlo; destruct (handle_id <? MAX_HANDLES) eqn:Hhi;
    simpl; split; intros H; try tauto; try lia.
  destruct H as [H | [H | H]]; [lia | lia | exact H].
Qed.

Lemma slot_Some_lt tbl i h :
  slot tbl i = Some h -> (Z.to_nat i < length tbl)%nat.
Proof.
  unfold slot. intros H.
  destruct (tbl !! Z.to_nat i) as [o|] eqn:E; [| discriminate].
  eapply lookup_lt_Some; eauto.
Qed.

Lemma slot_insert_eq tbl i p :
  (Z.to_nat i < length tbl)%nat ->
  slot (<[Z.to_nat i := p]> tbl) i = p.
Proof.
  intros H. unfold slot. rewrite list_lookup_insert_eq by exact H. reflexivity.
Qed.

Lemma slot_insert_ne tbl i j p :
  0 <= i -> 0 <= j -> i <> j ->
  slot (<[Z.to_nat i := p]> tbl) j = slot tbl j.
Proof.
  intros Hi Hj Hne. unfold slot.
  rewrite list_lookup_insert_ne by lia. reflexivity.
Qed.

Lemma slot_insert_same tbl i :
  <[Z.to_nat i := slot tbl i]> tbl = tbl.
Proof.
  unfold slot. destruct (tbl !! Z.to_nat i) as [o|] eqn:E; simpl.
  - apply list_insert_id. exact E.
  - apply list_insert_ge. apply lookup_ge_None. exact E.
Qed.

Lemma store_running_0 os w handle_id h :
  slot (handles w) handle_id = Some h ->
  store_running handle_id 0 os w = (Returns tt, mark_stopped handle_id h w).
Proof.
  intros Hs. unfold store_running, bind, get_table, set_slot, put_table, bind.
  rewrite Hs. reflexivity.
Qed.

(** ** Invalid handles *)

Lemma nativeGetStatus_invalid os w handle_id :
  get_handle (handles w) handle_id = None ->
  nativeGetStatus handle_id os w = (Returns (-1), w).
Proof. intros H. unfold nativeGetStatus, bind, get_table. rewrite H. reflexivity. Qed.

Lemma nativeStop_invalid os w handle_id :
  get_handle (handles w) handle_id = None ->
  nativeStop handle_id os w = (Returns false, w).
Proof. intros H. unfold nativeStop, bind, get_table. rewrite H. reflexivity. Qed.

Lemma nativeCleanup_invalid os w handle_id :
  get_handle (handles w) handle_id = None ->
  nativeCleanup handle_id os w = (Returns tt, w).
Proof. intros H. unfold nativeCleanup, bind, get_table. rewrite H. reflexivity. Qed.

(** C8.  For every handle id outside [0,4), or whose slot is empty, Get
    Status returns -1, Stop Process returns false, and Cleanup returns
    normally having changed nothing: same table, same files, no system
    call made. *)
Theorem invalid_handle_rejected (os : OS) (w : World) (handle_id : Z) :
  handle_id < 0 \/ MAX_HANDLES <= handle_id \/ slot (handles w) handle_id = None ->
  nativeGetStatus handle_id os w = (Returns (-1), w) /\
  nativeStop handle_id os w = (Returns false, w) /\
  nativeCleanup handle_id os w = (Returns tt, w).
Proof.
  intros H. apply get_handle_None in H.
  auto using nativeGetStatus_invalid, nativeStop_invalid, nativeCleanup_invalid.
Qed.

(** ** Start Process without its strings *)

(** C1.  When one of the four strings cannot be obtained, Start Process
    returns at once, the handle table, the files and the log of system
    calls are untouched, and what it returns is the never-assigned local
    [handle_id]: no determinate value, not the sentinel. *)
Theorem nativeStart_missing_string (os : OS) (w : World)
    (qemu_binary iso_path disk_path ports : option string) (ram_mb cpu_cores : Z) :
  qemu_binary = None \/ iso_path = None \/ disk_path = None \/ ports = None ->
  nativeStart qemu_binary iso_path disk_path ram_mb cpu_cores ports os w
  = (Returns Indeterminate, w) /\
  fst (nativeStart qemu_binary iso_path disk_path ram_mb cpu_cores ports os w)
  <> Returns (JLong (-1)).
Proof.
  intros H.
  assert (E : nativeStart qemu_binary iso_path disk_path ram_mb cpu_cores ports os w
              = (Returns Indeterminate, w)).
  { destruct qemu_binary, iso_path, disk_path, ports; try reflexivity.
    destruct H as [H | [H | [H | H]]]; discriminate. }
  rewrite E. split; [reflexivity | discriminate].
Qed.

(** ** Get Status *)

(** C5.  Get Status answers -1 for an invalid handle and 0 for a record
    marked not running, without a system call.  Otherwise it makes one
    non-blocking wait: answer 0 from the wait gives 1; the process id gives
    0 and marks the record not running, after which a second Get Status
    gives 0 again with no further system call; anything else gives -1. *)
Theorem nativeGetStatus_spec (os : OS) (w : World) (handle_id : Z) :
  (get_handle (handles w) handle_id = None ->
   nativeGetStatus handle_id os w = (Returns (-1), w)) /\
  (forall h,
     get_handle (handles w) handle_id = Some h ->
     running h = 0 ->
     nativeGetStatus handle_id os w = (Returns 0, w)) /\
  (forall h,
     get_handle (handles w) handle_id = Some h ->
     running h <> 0 ->
     let result := os (trace w) (Waitpid (pid h) WNOHANG) in
     let w1 := log_event (Waitpid (pid h) WNOHANG, result) w in
     (result = 0 ->
      nativeGetStatus handle_id os w = (Returns 1, w1)) /\
     (result <> 0 -> result = pid h ->
      let w2 := mark_stopped handle_id h w1 in
      nativeGetStatus handle_id os w = (Returns 0, w2) /\
      get_handle (handles w2) handle_id = Some (stopped h) /\
      nativeGetStatus handle_id os w2 = (Returns 0, w2)) /\
     (result <> 0 -> result <> pid h ->
      nativeGetStatus handle_id os w = (Returns (-1), w1))).
Proof.
  split; [apply nativeGetStatus_invalid |].
  split.
  - intros h Hh Hr. unfold nativeGetStatus, bind, get_table.
    rewrite Hh, Hr. reflexivity.
  - intros h Hh Hr result w1.
    assert (Hrun : (running h =? 0) = false) by (apply Z.eqb_neq; exact Hr).
    destruct (get_handle_slot _ _ _ Hh) as [Hrange Hslot].
    repeat split.
    + intros H0. unfold nativeGetStatus.
      unfold bind, get_table, sys. rewrite Hh, Hrun. fold result. fold w1.
      rewrite H0. reflexivity.
    + unfold nativeGetStatus, bind, get_table, sys. rewrite Hh, Hrun.
      fold result. fold w1.
      apply Z.eqb_neq in H. rewrite H.
      rewrite (proj2 (Z.eqb_eq _ _) H0).
      fold (bind (store_running handle_id 0) (fun _ => ret 0) os w1).
      unfold bind. rewrite (store_running_0 os w1 handle_id h) by exact Hslot.
      reflexivity.
    + unfold mark_stopped, set_handles, get_handle; simpl.
      destruct (0 <=? handle_id) eqn:Hlo; destruct (handle_id <? MAX_HANDLES) eqn:Hhi;
        simpl; try lia.
      apply slot_insert_eq. eapply slot_Some_lt; eauto.
    + assert (Hg : get_handle (handles (mark_stopped handle_id h w1)) handle_id
                   = Some (stopped h)).
      { unfold mark_stopped, set_handles, get_handle; simpl.
        destruct (0 <=? handle_id) eqn:Hlo; destruct (handle_id <? MAX_HANDLES) eqn:Hhi;
          simpl; try lia.
        apply slot_insert_eq. eapply slot_Some_lt; eauto. }
      unfold nativeGetStatus, bind, get_table. rewrite Hg. reflexivity.
    + intros H0 Hne. unfold nativeGetStatus, bind, get_table, sys.
      rewrite Hh, Hrun. fold result. fold w1.
      apply Z.eqb_neq in H0. rewrite H0.
      apply Z.eqb_neq in Hne. rewrite Hne. reflexivity.
Qed.

(** ** Stop Process *)

Lemma failed_polls_no_sigkill p k t :
  failed_polls p k t -> no_sigkill t.
Proof.
  induction 1 as [| k r u t Hr Hp IH]; intros q r' Hin.
  - destruct Hin.
  - destruct Hin as [E | [E | Hin]]; try discriminate.
    exact (IH q r' Hin).
Qed.

Lemma no_sigkill_app t1 t2 :
  no_sigkill t1 -> no_sigkill t2 -> no_sigkill (t1 ++ t2).
Proof.
  intros H1 H2 q r Hin. apply in_app_or in Hin.
  destruct Hin as [Hin | Hin]; [exact (H1 q r Hin) | exact (H2 q r Hin)].
Qed.

Lemma trace_log_event e w : trace (log_event e w) = trace w ++ [e].
Proof. reflexivity. Qed.

(** The polling loop: either it saw the exit at poll number [k + 1] with
    [k < n], marked the record and returned, or all [n] polls failed. *)
Lemma stop_poll_spec os handle_id h :
  forall n w,
    slot (handles w) handle_id = Some h ->
    exists b w' t,
      stop_poll n handle_id (pid h) os w = (Returns b, w') /\
      files w' = files w /\
      trace w' = trace w ++ t /\
      ((b = true /\
        handles w' = <[Z.to_nat handle_id := Some (stopped h)]> (handles w) /\
        exists k polls,
          (k < n)%nat /\ failed_polls (pid h) k polls /\
          t = polls ++ [(Waitpid (pid h) WNOHANG, pid h)])
       \/
       (b = false /\ handles w' = handles w /\ failed_polls (pid h) n t)).
Proof.
  induction n as [| n IH]; intros w Hs.
  - exists false, w, []. simpl. unfold ret.
    repeat split; try (rewrite app_nil_r; reflexivity).
    right. repeat split. constructor.
  - simpl. unfold bind at 1. unfold sys at 1.
    set (result := os (trace w) (Waitpid (pid h) WNOHANG)).
    set (w1 := log_event (Waitpid (pid h) WNOHANG, result) w).
    destruct (result =? pid h) eqn:E.
    + apply Z.eqb_eq in E.
      unfold bind. rewrite (store_running_0 os w1 handle_id h) by exact Hs.
      exists true, (mark_stopped handle_id h w1), [(Waitpid (pid h) WNOHANG, result)].
      repeat split.
      left. repeat split.
      exists 0%nat, []. repeat split; [lia | constructor |].
      rewrite E. reflexivity.
    + apply Z.eqb_neq in E.
      unfold bind at 1. unfold sys at 1.
      set (u := os (trace w1) (Usleep 100000)).
      set (w2 := log_event (Usleep 100000, u) w1).
      destruct (IH w2 Hs) as (b & w' & t & Hrun & Hf & Ht & Hcase).
      exists b, w', ((Waitpid (pid h) WNOHANG, result) :: (Usleep 100000, u) :: t).
      split; [exact Hrun |]. split; [exact Hf |].
      split.
      { rewrite Ht. unfold w2, w1. rewrite !trace_log_event.
        rewrite <- !app_assoc. reflexivity. }
      destruct Hcase as [(Hb & Hh & k & polls & Hk & Hp & Et) | (Hb & Hh & Hp)].
      * left. repeat split; [exact Hb | exact Hh |].
        exists (S k), ((Waitpid (pid h) WNOHANG, result) :: (Usleep 100000, u) :: polls).
        repeat split; [lia | constructor; assumption |].
        rewrite Et. reflexivity.
      * right. repeat split; [exact Hb | exact Hh |].
        constructor; assumption.
Qed.

Lemma nativeStop_running os w handle_id h :
  get_handle (handles w) handle_id = Some h ->
  running h <> 0 ->
  exists w' t,
    nativeStop handle_id os w = (Returns true, w') /\
    handles w' = <[Z.to_nat handle_id := Some (stopped h)]> (handles w) /\
    files w' = files w /\
    trace w' = trace w ++ (Kill (pid h) SIGTERM, os (trace w) (Kill (pid h) SIGTERM)) :: t /\
    stop_shape (pid h) (os (trace w) (Kill (pid h) SIGTERM)) t.
Proof.
  intros Hh Hr.
  assert (Hrun : (running h =? 0) = false) by (apply Z.eqb_neq; exact Hr).
  destruct (get_handle_slot _ _ _ Hh) as [Hrange Hslot].
  unfold nativeStop. unfold bind at 1. unfold get_table at 1.
  rewrite Hh, Hrun.
  unfold bind at 1. unfold sys at 1.
  set (r0 := os (trace w) (Kill (pid h) SIGTERM)).
  set (w0 := log_event (Kill (pid h) SIGTERM, r0) w).
  assert (Hslot0 : slot (handles w0) handle_id = Some h) by exact Hslot.
  (* the forced path, from any world whose slot still holds [h] *)
  assert (Hforce : forall wa,
    slot (handles wa) handle_id = Some h ->
    exists r1 r2 wb,
      (sys (Kill (pid h) SIGKILL) ;; sys (Waitpid (pid h) 0) ;;
       store_running handle_id 0 ;; ret true) os wa = (Returns true, wb) /\
      handles wb = <[Z.to_nat handle_id := Some (stopped h)]> (handles wa) /\
      files wb = files wa /\
      trace wb = trace wa ++ [(Kill (pid h) SIGKILL, r1); (Waitpid (pid h) 0, r2)]).
  { intros wa Hsa.
    set (r1 := os (trace wa) (Kill (pid h) SIGKILL)).
    set (wa1 := log_event (Kill (pid h) SIGKILL, r1) wa).
    set (r2 := os (trace wa1) (Waitpid (pid h) 0)).
    set (wa2 := log_event (Waitpid (pid h) 0, r2) wa1).
    exists r1, r2, (mark_stopped handle_id h wa2).
    split.
    - unfold bind at 1. unfold sys at 1. fold r1. fold wa1.
      unfold bind at 1. unfold sys at 1. fold r2. fold wa2.
      unfold bind. rewrite (store_running_0 os wa2 handle_id h) by exact Hsa.
      reflexivity.
    - repeat split. simpl. rewrite <- app_assoc. reflexivity. }
  destruct (r0 =? 0) eqn:E0.
  - apply Z.eqb_eq in E0.
    destruct (stop_poll_spec os handle_id h 50 w0 Hslot0)
      as (b & w1 & t & Hpoll & Hf & Ht & Hcase).
    unfold bind at 1. rewrite Hpoll.
    destruct Hcase as [(Hb & Hhs & k & polls & Hk & Hp & Et) | (Hb & Hhs & Hp)];
      subst b.
    + exists w1, t. split; [reflexivity |].
      split; [exact Hhs |]. split; [exact Hf |].
      split.
      { rewrite Ht. unfold w0. rewrite trace_log_event, <- app_assoc. reflexivity. }
      left. split; [exact E0 |].
      exists k, polls. repeat split; assumption.
    + assert (Hs1 : slot (handles w1) handle_id = Some h) by (rewrite Hhs; exact Hslot).
      destruct (Hforce w1 Hs1) as (r1 & r2 & wb & Hrunb & Hhb & Hfb & Htb).
      exists wb, (t ++ [(Kill (pid h) SIGKILL, r1); (Waitpid (pid h) 0, r2)]).
      split; [exact Hrunb |].
      split; [rewrite Hhb, Hhs; reflexivity |].
      split; [rewrite Hfb, Hf; reflexivity |].
      split.
      { rewrite Htb, Ht. unfold w0. rewrite trace_log_event, <- !app_assoc.
        reflexivity. }
      right. left. split; [exact E0 |].
      exists t, r1, r2. split; [exact Hp | reflexivity].
  - apply Z.eqb_neq in E0.
    unfold bind at 1. unfold ret at 1.
    destruct (Hforce w0 Hslot0) as (r1 & r2 & wb & Hrunb & Hhb & Hfb & Htb).
    exists wb, [(Kill (pid h) SIGKILL, r1); (Waitpid (pid h) 0, r2)].
    split; [exact Hrunb |].
    split; [exact Hhb |]. split; [exact Hfb |].
    split.
    { rewrite Htb. unfold w0. rewrite trace_log_event, <- app_assoc. reflexivity. }
    right. right. split; [exact E0 |]. exists r1, r2. reflexivity.
Qed.

Lemma nativeStop_not_running os w handle_id h :
  get_handle (handles w) handle_id = Some h ->
  running h = 0 ->
  nativeStop handle_id os w = (Returns true, w).
Proof.
  intros Hh Hr. unfold nativeStop, bind, get_table. rewrite Hh, Hr. reflexivity.
Qed.

(** C4.  On a valid handle whose record is marked running, Stop Process
    returns true with the record marked not running, and the system calls
    it makes are first the graceful signal and then: when the signal was
    delivered (answer 0), non-blocking waits 100 ms apart until one of the
    first 50 sees the exit, and nothing after it, the forced signal
    occurring nowhere; or, when all 50 waits failed, the forced signal and
    a blocking wait; or, when the graceful signal was not delivered, the
    forced signal and a blocking wait straight away. *)
Theorem nativeStop_escalation (os : OS) (w : World) (handle_id : Z) (h : QemuHandle) :
  get_handle (handles w) handle_id = Some h ->
  running h <> 0 ->
  let p := pid h in
  let r0 := os (trace w) (Kill p SIGTERM) in
  exists w' t,
    nativeStop handle_id os w = (Returns true, w') /\
    get_handle (handles w') handle_id = Some (stopped h) /\
    handles w' = <[Z.to_nat handle_id := Some (stopped h)]> (handles w) /\
    trace w' = trace w ++ (Kill p SIGTERM, r0) :: t /\
    ((r0 = 0 /\
      exists k polls,
        (k < 50)%nat /\ failed_polls p k polls /\
        t = polls ++ [(Waitpid p WNOHANG, p)] /\
        no_sigkill ((Kill p SIGTERM, r0) :: t))
     \/
     (r0 = 0 /\
      exists polls r1 r2,
        failed_polls p 50 polls /\
        t = polls ++ [(Kill p SIGKILL, r1); (Waitpid p 0, r2)])
     \/
     (r0 <> 0 /\
      exists r1 r2, t = [(Kill p SIGKILL, r1); (Waitpid p 0, r2)])).
Proof.
  intros Hh Hr p r0.
  destruct (nativeStop_running os w handle_id h Hh Hr)
    as (w' & t & Hrun & Hhs & _ & Ht & Hshape).
  destruct (get_handle_slot _ _ _ Hh) as [Hrange Hslot].
  exists w', t. split; [exact Hrun |].
  split.
  { rewrite Hhs. unfold get_handle.
    destruct (0 <=? handle_id) eqn:Hlo; destruct (handle_id <? MAX_HANDLES) eqn:Hhi;
      simpl; try lia.
    apply slot_insert_eq. eapply slot_Some_lt; eauto. }
  split; [exact Hhs |]. split; [exact Ht |].
  destruct Hshape as [(E0 & k & polls & Hk & Hp & Et) | [Hforced | Hundelivered]].
  - left. split; [exact E0 |].
    exists k, polls. repeat split; try assumption.
    intros q r [Hin | Hin]; [discriminate |].
    rewrite Et in Hin. revert Hin. apply no_sigkill_app.
    + eapply failed_polls_no_sigkill; eauto.
    + intros q' r' [Hin | []]. discriminate.
  - right. left. exact Hforced.
  - right. right. exact Hundelivered.
Qed.

(** C7.  Stop Process always returns, and returns true exactly when the
    handle id is valid; on a valid handle whose record is already marked
    not running it returns true and leaves the world as it found it (no
    system call, so no signal, and no change to the table). *)
Theorem nativeStop_result (os : OS) (w : World) (handle_id : Z) :
  exists b w',
    nativeStop handle_id os w = (Returns b, w') /\
    (b = false <-> get_handle (handles w) handle_id = None) /\
    (forall h,
       get_handle (handles w) handle_id = Some h ->
       running h = 0 ->
       b = true /\ w' = w).
Proof.
  destruct (get_handle (handles w) handle_id) as [h |] eqn:Hh.
  - destruct (Z.eq_dec (running h) 0) as [Hr | Hr].
    + exists true, w. split; [eapply nativeStop_not_running; eauto |].
      split; [split; discriminate |]. intros; split; reflexivity.
    + destruct (nativeStop_running os w handle_id h Hh Hr) as (w' & t & Hrun & _).
      exists true, w'. split; [exact Hrun |].
      split; [split; discriminate |].
      intros h' E Hr'. injection E as <-. contradiction.
  - exists false, w. split; [apply nativeStop_invalid; exact Hh |].
    split; [split; reflexivity |]. intros h' E. discriminate.
Qed.

(** ** Handle allocation *)

(** The scan, whatever the allocator answers: a failed request at every
    empty slot that was passed, and either a granted one at the slot that
    is returned, or -1 with the table as it was. *)
Lemma allocate_handle_loop_spec os :
  forall n i w,
    exists r w',
      allocate_handle_loop n i os w = (Returns r, w') /\
      files w' = files w /\
      ((r = -1 /\ handles w' = handles w /\
        trace w' = trace w ++ replicate (count_empty n i (handles w)) (calloc_handle, 0))
       \/
       (i <= r < i + Z.of_nat n /\
        slot (handles w) r = None /\
        handles w' = <[Z.to_nat r := Some zeroed_handle]> (handles w) /\
        exists p, p <> 0 /\
          trace w' = trace w
            ++ replicate (count_empty (Z.to_nat (r - i)) i (handles w)) (calloc_handle, 0)
            ++ [(calloc_handle, p)])).
Proof.
  induction n as [| n IH]; intros i w.
  - exists (-1), w. simpl. unfold ret. repeat split.
    left. repeat split. rewrite app_nil_r. reflexivity.
  - simpl. unfold bind at 1. unfold get_table at 1.
    destruct (slot (handles w) i) as [h |] eqn:Hs.
    + destruct (IH (i + 1) w) as (r & w' & Hrun & Hf & Hcase).
      exists r, w'. split; [exact Hrun |]. split; [exact Hf |].
      destruct Hcase as [(Hr & Hh & Ht) | (Hr & Hsr & Hh & p & Hp & Ht)].
      * left. repeat split; assumption.
      * right. split; [lia |]. split; [exact Hsr |]. split; [exact Hh |].
        exists p. split; [exact Hp |].
        replace (Z.to_nat (r - i)) with (S (Z.to_nat (r - (i + 1)))) by lia.
        simpl. rewrite Hs. exact Ht.
    + unfold bind at 1. unfold sys at 1. fold calloc_handle.
      set (p := os (trace w) calloc_handle).
      set (w1 := log_event (calloc_handle, p) w).
      destruct (p =? 0) eqn:Ep.
      * apply Z.eqb_eq in Ep.
        destruct (IH (i + 1) w1) as (r & w' & Hrun & Hf & Hcase).
        exists r, w'. split; [exact Hrun |]. split; [exact Hf |].
        destruct Hcase as [(Hr & Hh & Ht) | (Hr & Hsr & Hh & q & Hq & Ht)].
        -- left. split; [exact Hr |]. split; [exact Hh |].
           rewrite Ht. unfold w1. rewrite trace_log_event, Ep.
           simpl. rewrite <- app_assoc. reflexivity.
        -- right. split; [lia |]. split; [exact Hsr |]. split; [exact Hh |].
           exists q. split; [exact Hq |].
           replace (Z.to_nat (r - i)) with (S (Z.to_nat (r - (i + 1)))) by lia.
           simpl. rewrite Hs.
           rewrite Ht. unfold w1. rewrite trace_log_event, Ep.
           simpl. rewrite <- app_assoc. reflexivity.
      * apply Z.eqb_neq in Ep.
        exists i, (set_handles (<[Z.to_nat i := Some zeroed_handle]> (handles w)) w1).
        split; [reflexivity |]. split; [reflexivity |].
        right. split; [lia |]. split; [exact Hs |]. split; [reflexivity |].
        exists p. split; [exact Ep |].
        replace (i - i) with 0 by lia. reflexivity.
Qed.

(** A full stretch of table: the scan passes it without a system call. *)
Lemma allocate_handle_loop_full os :
  forall n i w,
    occupied (handles w) i (i + Z.of_nat n) ->
    allocate_handle_loop n i os w = (Returns (-1), w).
Proof.
  induction n as [| n IH]; intros i w Hocc; [reflexivity |].
  simpl. unfold bind at 1. unfold get_table at 1.
  destruct (slot (handles w) i) as [h |] eqn:Hs.
  - apply IH. intros j Hj. apply Hocc. lia.
  - exfalso. apply (Hocc i); [lia | exact Hs].
Qed.

(** When the allocator grants what is asked, the scan returns the first
    empty slot. *)
Lemma allocate_handle_loop_first_empty os :
  (forall t, os t calloc_handle <> 0) ->
  forall n i w r,
    i <= r < i + Z.of_nat n ->
    occupied (handles w) i r ->
    slot (handles w) r = None ->
    allocate_handle_loop n i os w
    = (Returns r,
       set_handles (<[Z.to_nat r := Some zeroed_handle]> (handles w))
         (log_event (calloc_handle, os (trace w) calloc_handle) w)).
Proof.
  intros Hc. induction n as [| n IH]; intros i w r Hr Hocc Hs; [lia |].
  simpl. unfold bind at 1. unfold get_table at 1.
  destruct (Z.eq_dec i r) as [-> | Hne].
  - rewrite Hs. unfold bind at 1. unfold sys at 1. fold calloc_handle.
    pose proof (Hc (trace w)) as Hp. apply Z.eqb_neq in Hp. rewrite Hp.
    reflexivity.
  - destruct (slot (handles w) i) as [h |] eqn:Hsi.
    + apply IH; [lia | | exact Hs]. intros j Hj. apply Hocc. lia.
    + exfalso. apply (Hocc i); [lia | exact Hsi].
Qed.

(** A stretch of table is full, or has a first empty slot. *)
Lemma first_empty_or_full tbl :
  forall n i,
    occupied tbl i (i + Z.of_nat n) \/
    exists r, i <= r < i + Z.of_nat n /\ occupied tbl i r /\ slot tbl r = None.
Proof.
  induction n as [| n IH]; intros i.
  - left. intros j Hj. lia.
  - destruct (slot tbl i) as [h |] eqn:Hs.
    + destruct (IH (i + 1)) as [Hocc | (r & Hr & Hocc & Hsr)].
      * left. intros j Hj. destruct (Z.eq_dec j i) as [-> | Hne].
        -- rewrite Hs. discriminate.
        -- apply Hocc. lia.
      * right. exists r. split; [lia |]. split; [| exact Hsr].
        intros j Hj. destruct (Z.eq_dec j i) as [-> | Hne].
        -- rewrite Hs. discriminate.
        -- apply Hocc. lia.
    + right. exists i. split; [lia |]. split; [| exact Hs].
      intros j Hj. lia.
Qed.

(** ** Start Process, once the strings are there *)

Lemma nativeStart_allocated os w binary iso disk port_str ram_mb cpu_cores r w1 :
  allocate_handle os w = (Returns r, w1) ->
  0 <= r ->
  nativeStart (Some binary) (Some iso) (Some disk) ram_mb cpu_cores (Some port_str) os w
  = after_fork binary iso port_str ram_mb cpu_cores r os w1.
Proof.
  intros Ha Hr. unfold nativeStart. unfold bind at 1. rewrite Ha.
  assert (E : (r <? 0) = false) by (apply Z.ltb_ge; exact Hr).
  rewrite E. reflexivity.
Qed.

Lemma nativeStart_no_slot os w binary iso disk port_str ram_mb cpu_cores r w1 :
  allocate_handle os w = (Returns r, w1) ->
  r < 0 ->
  nativeStart (Some binary) (Some iso) (Some disk) ram_mb cpu_cores (Some port_str) os w
  = (Returns (JLong r), w1).
Proof.
  intros Ha Hr. unfold nativeStart. unfold bind at 1. rewrite Ha.
  assert (E : (r <? 0) = true) by (apply Z.ltb_lt; exact Hr).
  rewrite E. reflexivity.
Qed.

(** What a successful allocation leaves behind. *)
Lemma allocate_handle_granted os w r w1 :
  wf_table (handles w) ->
  allocate_handle os w = (Returns r, w1) ->
  0 <= r ->
  0 <= r < MAX_HANDLES /\
  slot (handles w) r = None /\
  handles w1 = <[Z.to_nat r := Some zeroed_handle]> (handles w) /\
  slot (handles w1) r = Some zeroed_handle /\
  files w1 = files w.
Proof.
  intros Hwf Ha Hr.
  destruct (allocate_handle_loop_spec os (Z.to_nat MAX_HANDLES) 0 w)
    as (r' & w' & Hrun & Hf & Hcase).
  unfold allocate_handle in Ha. rewrite Ha in Hrun.
  injection Hrun as <- <-.
  destruct Hcase as [(Hneg & _) | (Hrange & Hs & Hh & _)]; [lia |].
  assert (Hr4 : 0 <= r < MAX_HANDLES) by (unfold MAX_HANDLES in *; lia).
  repeat split; try assumption; try lia.
  rewrite Hh. apply slot_insert_eq. unfold wf_table in Hwf. lia.
Qed.

Lemma free_handle_allocated os w r h :
  0 <= r < MAX_HANDLES ->
  slot (handles w) r = Some h ->
  free_handle r os w
  = (Returns tt,
     set_handles (<[Z.to_nat r := None]> (handles w))
       (log_event (Free r, os (trace w) (Free r)) w)).
Proof.
  intros Hr Hs. unfold free_handle. unfold bind at 1. unfold get_table at 1.
  rewrite Hs.
  assert (E1 : (0 <=? r) = true) by (apply Z.leb_le; lia).
  assert (E2 : (r <? MAX_HANDLES) = true) by (apply Z.ltb_lt; lia).
  rewrite E1, E2. simpl. reflexivity.
Qed.

(** C9.  When the fork made by Start Process fails (answer below zero),
    the slot that the call had just allocated, and that held a zeroed
    record, is freed and emptied, the call returns -1, and the table is
    what it was before the call; the last two system calls are the fork
    and the release of that slot. *)
Theorem nativeStart_fork_failure (os : OS) (w : World)
    (binary iso disk port_str : string) (ram_mb cpu_cores : Z) (r : Z) (w1 : World) :
  wf_table (handles w) ->
  allocate_handle os w = (Returns r, w1) ->
  0 <= r ->
  os (trace w1) Fork < 0 ->
  exists w',
    nativeStart (Some binary) (Some iso) (Some disk) ram_mb cpu_cores (Some port_str) os w
    = (Returns (JLong (-1)), w') /\
    slot (handles w1) r = Some zeroed_handle /\
    slot (handles w') r = None /\
    handles w' = handles w /\
    files w' = files w /\
    exists f, trace w' = trace w1 ++ [(Fork, os (trace w1) Fork); (Free r, f)].
Proof.
  intros Hwf Ha Hr Hfork.
  destruct (allocate_handle_granted os w r w1 Hwf Ha Hr)
    as (Hrange & Hs & Hh & Hs1 & Hf).
  rewrite (nativeStart_allocated os w binary iso disk port_str ram_mb cpu_cores r w1 Ha Hr).
  unfold after_fork. unfold bind at 1. unfold sys at 1.
  set (p := os (trace w1) Fork) in *.
  set (w2 := log_event (Fork, p) w1).
  assert (E : (p <? 0) = true) by (apply Z.ltb_lt; exact Hfork).
  rewrite E. unfold bind at 1.
  rewrite (free_handle_allocated os w2 r zeroed_handle Hrange Hs1).
  eexists. split; [reflexivity |].
  assert (Hback : <[Z.to_nat r := None]> (handles w2) = handles w).
  { unfold w2. simpl. rewrite Hh. rewrite list_insert_insert_eq.
    rewrite <- Hs. apply slot_insert_same. }
  split; [exact Hs1 |].
  split; [cbn [handles set_handles]; rewrite Hback; exact Hs |].
  split; [exact Hback |].
  split; [exact Hf |].
  eexists. unfold w2. cbn [trace set_handles log_event].
  rewrite <- app_assoc. reflexivity.
Qed.

Lemma store_pid_running os w r h p :
  slot (handles w) r = Some h ->
  (store_pid r p ;; store_running r 1 ;; ret (JLong r)) os w
  = (Returns (JLong r),
     set_handles
       (<[Z.to_nat r := Some (mkHandle p 1 (data_dir h) (pid_file h) (log_file h))]>
          (handles w)) w).
Proof.
  intros Hs. pose proof (slot_Some_lt _ _ _ Hs) as Hlt.
  unfold bind at 1. unfold store_pid. unfold bind at 1. unfold get_table at 1.
  rewrite Hs. unfold set_slot, bind, get_table, put_table, store_running.
  cbn [handles set_handles].
  unfold bind, get_table. cbn [handles set_handles].
  rewrite slot_insert_eq by exact Hlt.
  cbn [pid running data_dir pid_file log_file].
  unfold set_slot, bind, get_table, put_table, ret.
  cbn [handles set_handles files trace].
  rewrite list_insert_insert_eq. reflexivity.
Qed.

(** With the allocator and the fork succeeding, Start Process takes the
    first empty slot and returns its index. *)
Lemma start_takes_first_empty os w a r :
  os_level_success os ->
  wf_table (handles w) ->
  0 <= r < MAX_HANDLES ->
  occupied (handles w) 0 r ->
  slot (handles w) r = None ->
  exists p w',
    start a os w = (Returns (JLong r), w') /\
    0 < p /\
    handles w' = <[Z.to_nat r := Some (started p)]> (handles w) /\
    files w' = files w.
Proof.
  intros [Hc Hfk] Hwf Hr Hocc Hs.
  pose proof (allocate_handle_loop_first_empty os Hc (Z.to_nat MAX_HANDLES) 0 w r)
    as Ha.
  fold allocate_handle in Ha.
  specialize (Ha ltac:(unfold MAX_HANDLES in *; lia) Hocc Hs).
  set (w1 := set_handles (<[Z.to_nat r := Some zeroed_handle]> (handles w))
               (log_event (calloc_handle, os (trace w) calloc_handle) w)) in *.
  assert (Hs1 : slot (handles w1) r = Some zeroed_handle).
  { unfold w1. cbn [handles set_handles]. apply slot_insert_eq.
    unfold wf_table, MAX_HANDLES in *. lia. }
  unfold start.
  rewrite (nativeStart_allocated os w _ _ _ _ _ _ r w1 Ha ltac:(lia)).
  unfold after_fork. unfold bind at 1. unfold sys at 1.
  set (p := os (trace w1) Fork).
  set (w2 := log_event (Fork, p) w1).
  pose proof (Hfk (trace w1)) as Hp. fold p in Hp.
  assert (E1 : (p <? 0) = false) by (apply Z.ltb_ge; lia).
  assert (E2 : (p =? 0) = false) by (apply Z.eqb_neq; lia).
  rewrite E1, E2.
  rewrite (store_pid_running os w2 r zeroed_handle p Hs1).
  exists p. eexists. split; [reflexivity |].
  split; [exact Hp |].
  split; [| reflexivity].
  unfold w2, w1. cbn [handles set_handles log_event].
  rewrite list_insert_insert_eq. reflexivity.
Qed.

(** With every slot occupied, Start Process returns -1 and makes no system
    call. *)
Lemma start_table_full os w a :
  occupied (handles w) 0 MAX_HANDLES ->
  start a os w = (Returns (JLong (-1)), w).
Proof.
  intros Hocc. unfold start.
  apply nativeStart_no_slot; [| lia].
  unfold allocate_handle. apply allocate_handle_loop_full. exact Hocc.
Qed.

Lemma four_starts_then_full os w a1 a2 a3 a4 a5 :
  os_level_success os ->
  handles w = empty_table ->
  exists w1 w2 w3 w4 w5,
    start a1 os w = (Returns (JLong 0), w1) /\
    start a2 os w1 = (Returns (JLong 1), w2) /\
    start a3 os w2 = (Returns (JLong 2), w3) /\
    start a4 os w3 = (Returns (JLong 3), w4) /\
    start a5 os w4 = (Returns (JLong (-1)), w5).
Proof.
  intros Hos H0.
  destruct (start_takes_first_empty os w a1 0 Hos) as (p1 & w1 & R1 & _ & T1 & _).
  { rewrite H0. reflexivity. }
  { unfold MAX_HANDLES. lia. }
  { intros j Hj. lia. }
  { rewrite H0. reflexivity. }
  rewrite H0 in T1. cbn in T1.
  destruct (start_takes_first_empty os w1 a2 1 Hos) as (p2 & w2 & R2 & _ & T2 & _).
  { rewrite T1. reflexivity. }
  { unfold MAX_HANDLES. lia. }
  { intros j Hj. assert (j = 0) as -> by lia. rewrite T1. discriminate. }
  { rewrite T1. reflexivity. }
  rewrite T1 in T2. cbn in T2.
  destruct (start_takes_first_empty os w2 a3 2 Hos) as (p3 & w3 & R3 & _ & T3 & _).
  { rewrite T2. reflexivity. }
  { unfold MAX_HANDLES. lia. }
  { intros j Hj. rewrite T2.
    assert (j = 0 \/ j = 1) as [-> | ->] by lia; discriminate. }
  { rewrite T2. reflexivity. }
  rewrite T2 in T3. cbn in T3.
  destruct (start_takes_first_empty os w3 a4 3 Hos) as (p4 & w4 & R4 & _ & T4 & _).
  { rewrite T3. reflexivity. }
  { unfold MAX_HANDLES. lia. }
  { intros j Hj. rewrite T3.
    assert (j = 0 \/ j = 1 \/ j = 2) as [-> | [-> | ->]] by lia; discriminate. }
  { rewrite T3. reflexivity. }
  rewrite T3 in T4. cbn in T4.
  exists w1, w2, w3, w4, w4.
  repeat (split; [assumption |]).
  apply start_table_full. intros j Hj. rewrite T4. unfold MAX_HANDLES in Hj.
  assert (j = 0 \/ j = 1 \/ j = 2 \/ j = 3) as [-> | [-> | [-> | ->]]] by lia;
    discriminate.
Qed.

(** C6, as stated, fails: on the empty table allocation fails when the
    allocator grants nothing, although no slot is occupied; and when the
    allocator refuses the first request only, the slot returned is 1, not
    the first empty slot 0. *)
Lemma allocation_not_only_by_occupancy :
  ~ (fst (allocate_handle os_no_memory initial_world) = Returns (-1) ->
     occupied (handles initial_world) 0 MAX_HANDLES)
  /\
  (slot (handles initial_world) 0 = None /\
   fst (allocate_handle os_first_calloc_fails initial_world) = Returns 1).
Proof.
  split.
  - intros H. specialize (H eq_refl).
    apply (H 0); [unfold MAX_HANDLES; lia | reflexivity].
  - split; reflexivity.
Qed.

(** C6, amended.  Allocation scans the four slots in index order and asks
    for zeroed storage at each empty slot; it returns the first empty slot
    at which the request is granted, which then holds the zeroed record,
    and it returns -1, leaving the table alone, when every request at an
    empty slot was refused (none is made when all slots are occupied).
    When the allocator grants every request, the slot returned is the
    first empty one and -1 is returned exactly when all four slots are
    occupied.  So, from the empty table, with the allocator and the fork
    succeeding, four Start Process calls in a row return 0, 1, 2 and 3 and
    a fifth returns -1. *)
Theorem allocate_handle_first_fit (os : OS) (w : World) :
  wf_table (handles w) ->
  (exists r w',
     allocate_handle os w = (Returns r, w') /\
     files w' = files w /\
     ((r = -1 /\ handles w' = handles w /\
       trace w' = trace w
         ++ replicate (count_empty 4 0 (handles w)) (calloc_handle, 0))
      \/
      (0 <= r < MAX_HANDLES /\
       slot (handles w) r = None /\
       handles w' = <[Z.to_nat r := Some zeroed_handle]> (handles w) /\
       slot (handles w') r = Some zeroed_handle /\
       exists p, p <> 0 /\
         trace w' = trace w
           ++ replicate (count_empty (Z.to_nat r) 0 (handles w)) (calloc_handle, 0)
           ++ [(calloc_handle, p)])))
  /\
  ((forall t, os t calloc_handle <> 0) ->
   (forall r,
      0 <= r < MAX_HANDLES ->
      occupied (handles w) 0 r ->
      slot (handles w) r = None ->
      fst (allocate_handle os w) = Returns r) /\
   (fst (allocate_handle os w) = Returns (-1) <->
    occupied (handles w) 0 MAX_HANDLES))
  /\
  (os_level_success os ->
   handles w = empty_table ->
   forall a1 a2 a3 a4 a5,
   exists w1 w2 w3 w4 w5,
     start a1 os w = (Returns (JLong 0), w1) /\
     start a2 os w1 = (Returns (JLong 1), w2) /\
     start a3 os w2 = (Returns (JLong 2), w3) /\
     start a4 os w3 = (Returns (JLong 3), w4) /\
     start a5 os w4 = (Returns (JLong (-1)), w5)).
Proof.
  intros Hwf. split; [| split].
  - destruct (allocate_handle_loop_spec os (Z.to_nat MAX_HANDLES) 0 w)
      as (r & w' & Hrun & Hf & Hcase).
    exists r, w'. split; [exact Hrun |]. split; [exact Hf |].
    destruct Hcase as [(Hr & Hh & Ht) | (Hr & Hs & Hh & p & Hp & Ht)].
    + left. repeat split; assumption.
    + right. split; [unfold MAX_HANDLES in *; lia |].
      split; [exact Hs |]. split; [exact Hh |].
      split.
      { rewrite Hh. apply slot_insert_eq.
        unfold wf_table, MAX_HANDLES in *. lia. }
      exists p. split; [exact Hp |].
      rewrite Z.sub_0_r in Ht. exact Ht.
  - intros Hc. split.
    + intros r Hr Hocc Hs. unfold allocate_handle.
      rewrite (allocate_handle_loop_first_empty os Hc (Z.to_nat MAX_HANDLES) 0 w r);
        [reflexivity | unfold MAX_HANDLES in *; lia | exact Hocc | exact Hs].
    + split.
      * intros Hfail.
        destruct (first_empty_or_full (handles w) (Z.to_nat MAX_HANDLES) 0)
          as [Hocc | (r & Hr & Hocc & Hs)].
        -- exact Hocc.
        -- unfold allocate_handle in Hfail.
           rewrite (allocate_handle_loop_first_empty os Hc _ 0 w r Hr Hocc Hs) in Hfail.
           simpl in Hfail. injection Hfail as Hfail. lia.
      * intros Hocc. unfold allocate_handle.
        rewrite allocate_handle_loop_full; [reflexivity | exact Hocc].
  - intros Hos H0 a1 a2 a3 a4 a5.
    apply four_starts_then_full; assumption.
Qed.

(** ** The emulator's argument vector *)

Lemma substring_0_all s :
  forall n, (String.length s <= n)%nat -> substring 0 n s = s.
Proof.
  induction s as [| c s IH]; intros [| n] Hn; simpl in *; try reflexivity; try lia.
  rewrite IH by lia. reflexivity.
Qed.

Lemma string_length_app (s1 s2 : string) :
  String.length (s1 +:+ s2) = (String.length s1 + String.length s2)%nat.
Proof. induction s1 as [| c s1 IH]; simpl; [reflexivity | rewrite IH; reflexivity]. Qed.

Lemma fmt_u_length fuel :
  forall n acc,
    (String.length (fmt_u fuel n acc) <= fuel + String.length acc)%nat.
Proof.
  induction fuel as [| fuel IH]; intros n acc; simpl; [lia |].
  destruct (n / 10 =? 0); simpl; [lia |].
  specialize (IH (n / 10) (String (digit_char (n mod 10)) acc)).
  simpl in IH. lia.
Qed.

Lemma fmt_d_length n : (String.length (fmt_d n) <= 11)%nat.
Proof.
  unfold fmt_d. destruct (n <? 0).
  - pose proof (fmt_u_length 10 (- n) "") as H.
    change (String.length (String "-"%char (fmt_u 10 (- n) "")))
      with (S (String.length (fmt_u 10 (- n) ""))).
    change (String.length "") with 0%nat in H. lia.
  - pose proof (fmt_u_length 10 n "") as H.
    change (String.length "") with 0%nat in H. lia.
Qed.

Lemma snprintf_netdev port_str :
  snprintf 512 ("user,id=net0," +:+ port_str)
  = "user,id=net0," +:+ substring 0 498 port_str.
Proof. reflexivity. Qed.

Lemma qemu_argv_cut binary iso port_str ram_mb cpu_cores :
  qemu_argv binary iso port_str ram_mb cpu_cores
  = spec_argv binary iso (substring 0 498 port_str) ram_mb cpu_cores.
Proof.
  unfold qemu_argv, spec_argv.
  rewrite snprintf_netdev.
  assert (E1 : snprintf 32 (fmt_d cpu_cores) = fmt_d cpu_cores).
  { apply substring_0_all. pose proof (fmt_d_length cpu_cores). simpl. lia. }
  assert (E2 : snprintf 32 (fmt_d ram_mb +:+ "M") = fmt_d ram_mb +:+ "M").
  { apply substring_0_all. rewrite string_length_app.
    pose proof (fmt_d_length ram_mb). simpl. lia. }
  rewrite E1, E2. reflexivity.
Qed.

Lemma digit_value_char d : 0 <= d < 10 -> digit_value (digit_char d) = d.
Proof.
  intros Hd. unfold digit_value, digit_char.
  rewrite nat_ascii_embedding by lia. lia.
Qed.

Lemma digit_char_not_minus d : 0 <= d < 10 -> digit_char d <> "-"%char.
Proof.
  intros Hd E. apply (f_equal nat_of_ascii) in E.
  unfold digit_char in E. rewrite nat_ascii_embedding in E by lia.
  change (nat_of_ascii "-"%char) with 45%nat in E. lia.
Qed.

Lemma fmt_u_value fuel :
  forall n acc,
    0 <= n < 10 ^ Z.of_nat fuel ->
    read_u (fmt_u fuel n acc) 0 = read_u acc n.
Proof.
  induction fuel as [| fuel IH]; intros n acc Hn.
  - simpl in *. assert (n = 0) as -> by lia. reflexivity.
  - rewrite Nat2Z.inj_succ, Z.pow_succ_r in Hn by lia.
    pose proof (Z.mod_pos_bound n 10 ltac:(lia)) as Hm.
    pose proof (Z.div_mod n 10 ltac:(lia)) as Hdm.
    simpl. destruct (n / 10 =? 0) eqn:E.
    + apply Z.eqb_eq in E. simpl.
      rewrite digit_value_char by exact Hm. f_equal. lia.
    + rewrite IH.
      * simpl. rewrite digit_value_char by exact Hm. f_equal. lia.
      * split; [apply Z.div_pos; lia |].
        apply Z.div_lt_upper_bound; lia.
Qed.

Lemma fmt_u_not_minus fuel :
  forall n acc,
    starts_with_minus acc = false ->
    starts_with_minus (fmt_u fuel n acc) = false.
Proof.
  induction fuel as [| fuel IH]; intros n acc Hacc; [exact Hacc |].
  pose proof (Z.mod_pos_bound n 10 ltac:(lia)) as Hm.
  assert (Hd : starts_with_minus (String (digit_char (n mod 10)) acc) = false).
  { cbn [starts_with_minus].
    destruct (ascii_dec (digit_char (n mod 10)) "-"%char) as [E |]; [| reflexivity].
    exfalso. exact (digit_char_not_minus _ Hm E). }
  cbn [fmt_u]. destruct (n / 10 =? 0); [exact Hd | apply IH; exact Hd].
Qed.

(** ["%d"] writes the decimal numeral of its 32-bit argument. *)
Lemma read_d_fmt_d n : - 2 ^ 31 <= n < 2 ^ 31 -> read_d (fmt_d n) = n.
Proof.
  intros Hn. unfold fmt_d. destruct (n <? 0) eqn:E.
  - apply Z.ltb_lt in E. cbn [read_d].
    destruct (ascii_dec "-"%char "-"%char) as [_ | Hne]; [| contradiction].
    rewrite fmt_u_value by (change (Z.of_nat 10) with 10; lia).
    cbn [read_u]. lia.
  - apply Z.ltb_ge in E.
    pose proof (fmt_u_not_minus 10 n "" eq_refl) as Hm.
    pose proof (fmt_u_value 10 n "" ltac:(change (Z.of_nat 10) with 10; lia)) as Hv.
    cbn [read_u] in Hv.
    unfold read_d. unfold starts_with_minus in Hm.
    destruct (fmt_u 10 n "") as [| c s] eqn:Es; [cbn [read_u] in Hv; lia |].
    destruct (ascii_dec c "-"%char); [discriminate | exact Hv].
Qed.

(** C3, as stated, fails: for a port-forwarding text of 499 bytes the
    child does not call [execlp] with the argument vector of the
    specification; the network argument it passes has 511 bytes, one
    short of [user,id=net0,<port-spec>]. *)
Lemma long_port_spec_is_cut :
  exec_calls
    (trace (snd (nativeStart (Some "qemu") (Some "boot.iso") (Some "disk.qcow2")
                   2048 2 (Some long_ports) os_child initial_world)))
  <> [("qemu", spec_argv "qemu" "boot.iso" long_ports 2048 2)].
Proof.
  intros H.
  apply (f_equal (fun l => match l with
                           | [(_, argv)] => N.of_nat (String.length (nth 16 argv ""))
                           | _ => 0%N
                           end)) in H.
  vm_compute in H. discriminate H.
Qed.

(** What the child passes instead. *)
Example long_port_spec_passed :
  exec_calls
    (trace (snd (nativeStart (Some "qemu") (Some "boot.iso") (Some "disk.qcow2")
                   2048 2 (Some long_ports) os_child initial_world)))
  = [("qemu", spec_argv "qemu" "boot.iso" (substring 0 498 long_ports) 2048 2)]
  /\ String.length ("user,id=net0," +:+ long_ports) = 512%nat
  /\ String.length ("user,id=net0," +:+ substring 0 498 long_ports) = 511%nat.
Proof. vm_compute. repeat split. Qed.

(** C3, amended.  In the child of a Start Process call (strings obtained,
    slot allocated, fork answering 0), the one system call made is
    [execlp] of the emulator executable with the argument vector of the
    specification in which the port-forwarding text is cut to its first
    498 bytes (so that the network argument is the first 511 bytes of
    [user,id=net0,<port-spec>]); for a text of at most 498 bytes that is
    the vector of the specification itself.  The numerals after [-smp]
    and [-m] denote the core count and the memory size, the drive
    argument is the literal template, and the disk path occurs nowhere.
    When [execlp] succeeds the image is replaced; when it fails the child
    exits with status 1, having made no other system call. *)
Theorem nativeStart_child_exec (os : OS) (w : World)
    (binary iso disk port_str : string) (ram_mb cpu_cores : Z) (r : Z) (w1 : World) :
  - 2 ^ 31 <= ram_mb < 2 ^ 31 ->
  - 2 ^ 31 <= cpu_cores < 2 ^ 31 ->
  allocate_handle os w = (Returns r, w1) ->
  0 <= r ->
  os (trace w1) Fork = 0 ->
  let argv := spec_argv binary iso (substring 0 498 port_str) ram_mb cpu_cores in
  let w2 := log_event (Fork, 0) w1 in
  let e := os (trace w2) (Execlp binary argv) in
  let w3 := log_event (Execlp binary argv, e) w2 in
  ((String.length port_str <= 498)%nat ->
   argv = spec_argv binary iso port_str ram_mb cpu_cores) /\
  nth 16 argv "" = substring 0 511 ("user,id=net0," +:+ port_str) /\
  read_d (nth 6 argv "") = cpu_cores /\
  (exists numeral, nth 8 argv "" = numeral +:+ "M" /\ read_d numeral = ram_mb) /\
  (e <> -1 ->
   nativeStart (Some binary) (Some iso) (Some disk) ram_mb cpu_cores (Some port_str) os w
   = (ImageReplaced, w3)) /\
  (e = -1 ->
   nativeStart (Some binary) (Some iso) (Some disk) ram_mb cpu_cores (Some port_str) os w
   = (ProcessExited 1, log_event (Exit_ 1, 0) w3)).
Proof.
  intros Hram Hcores Ha Hr Hfork argv w2 e w3.
  assert (Hrun : nativeStart (Some binary) (Some iso) (Some disk) ram_mb cpu_cores
                   (Some port_str) os w
                 = (execlp binary argv ;; _exit 1) os w2).
  { rewrite (nativeStart_allocated os w binary iso disk port_str ram_mb cpu_cores r w1 Ha Hr).
    unfold after_fork. unfold bind at 1. unfold sys at 1.
    rewrite Hfork. simpl (0 <? 0). simpl (0 =? 0).
    rewrite qemu_argv_cut. reflexivity. }
  split; [| split; [| split; [| split; [| split]]]].
  - intros Hlen. unfold argv. rewrite substring_0_all by exact Hlen. reflexivity.
  - reflexivity.
  - apply read_d_fmt_d. exact Hcores.
  - exists (fmt_d ram_mb). split; [reflexivity | apply read_d_fmt_d; exact Hram].
  - intros He. rewrite Hrun. unfold bind, execlp. fold e. fold w3.
    apply Z.eqb_neq in He. rewrite He. reflexivity.
  - intros He. rewrite Hrun. unfold bind, execlp. fold e. fold w3.
    rewrite (proj2 (Z.eqb_eq _ _) He). reflexivity.
Qed.

(** ** The disk image header *)

Lemma be_bytes_length n v : length (be_bytes n v) = n.
Proof. induction n as [| n IH]; simpl; [reflexivity | rewrite IH; reflexivity]. Qed.

Lemma be_value_be_bytes n v : be_value (be_bytes n v) = v mod 256 ^ Z.of_nat n.
Proof.
  induction n as [| n IH].
  - simpl. rewrite Z.mod_1_r. reflexivity.
  - cbn [be_bytes be_value]. rewrite be_bytes_length, IH.
    rewrite Nat2Z.inj_succ, Z.pow_succ_r by lia.
    rewrite (Z.mul_comm 256), Z.rem_mul_r by lia. lia.
Qed.

(** The product as the code computes it is the true product modulo 2^64. *)
Lemma size_bytes_of_mod size_mb :
  size_bytes_of size_mb = (size_mb * 1048576) mod 2 ^ 64.
Proof.
  unfold size_bytes_of.
  rewrite Z.mul_mod_idemp_l by lia.
  rewrite <- Z.mul_assoc.
  rewrite Z.mul_mod_idemp_l by lia.
  reflexivity.
Qed.

Lemma size_bytes_of_sign_extended size_mb :
  size_bytes_of size_mb = ((size_mb mod 2 ^ 64) * 1048576) mod 2 ^ 64.
Proof.
  rewrite size_bytes_of_mod. rewrite Z.mul_mod_idemp_l by lia. reflexivity.
Qed.

(** A byte of the low 64 bits is the same byte of the whole number. *)
Lemma byte_of_low_64 v k :
  0 <= k <= 56 ->
  ((v mod 2 ^ 64) / 2 ^ k) mod 256 = (v / 2 ^ k) mod 256.
Proof.
  intros Hk. change 256 with (2 ^ 8).
  apply Z.bits_inj'. intros n Hn.
  rewrite !Z.testbit_mod_pow2 by lia.
  destruct (n <? 8) eqn:E; [| reflexivity].
  apply Z.ltb_lt in E. cbn [andb].
  rewrite !Z.div_pow2_bits by lia.
  rewrite Z.mod_pow2_bits_low by lia. reflexivity.
Qed.

Lemma size_byte_spec size_mb i :
  0 <= i <= 7 ->
  size_byte (size_bytes_of size_mb) i mod 256
  = (size_mb * 1048576 / 2 ^ (56 - i * 8)) mod 256.
Proof.
  intros Hi. unfold size_byte.
  change 255 with (Z.ones 8). rewrite Z.land_ones by lia.
  rewrite Z.shiftr_div_pow2 by lia.
  change (2 ^ 8) with 256. rewrite Z.mod_mod by lia.
  rewrite size_bytes_of_mod. apply byte_of_low_64. lia.
Qed.

Lemma qcow2_header_shape size_mb :
  qcow2_header size_mb
  = [81; 70; 73; 251] ++ [0; 0; 0; 3] ++ replicate 12 0 ++ [0; 0; 0; 16]
    ++ map (fun i => size_byte (size_bytes_of size_mb) i mod 256)
         [0; 1; 2; 3; 4; 5; 6; 7]
    ++ replicate 480 0.
Proof.
  unfold qcow2_header. cbn [fill_size map].
  change (0 + 1) with 1. change (1 + 1) with 2. change (2 + 1) with 3.
  change (3 + 1) with 4. change (4 + 1) with 5. change (5 + 1) with 6.
  change (6 + 1) with 7.
  unfold store_byte.
  generalize (size_byte (size_bytes_of size_mb) 0 mod 256).
  generalize (size_byte (size_bytes_of size_mb) 1 mod 256).
  generalize (size_byte (size_bytes_of size_mb) 2 mod 256).
  generalize (size_byte (size_bytes_of size_mb) 3 mod 256).
  generalize (size_byte (size_bytes_of size_mb) 4 mod 256).
  generalize (size_byte (size_bytes_of size_mb) 5 mod 256).
  generalize (size_byte (size_bytes_of size_mb) 6 mod 256).
  generalize (size_byte (size_bytes_of size_mb) 7 mod 256).
  intros b7 b6 b5 b4 b3 b2 b1 b0. vm_compute. reflexivity.
Qed.

(** The header the code builds is the header of the specification. *)
Lemma qcow2_header_spec size_mb : qcow2_header size_mb = spec_header size_mb.
Proof.
  rewrite qcow2_header_shape. unfold spec_header. cbn [map be_bytes].
  rewrite !size_byte_spec by lia.
  reflexivity.
Qed.

(** ** Create Disk Image *)

(** With the path at hand and the file opened: the header goes to one
    [fwrite], the stream writes out what it took when it is closed, and
    the file holds what reached it. *)
Lemma nativeCreateDisk_run os w path size_mb :
  os (trace w) (Fopen path "wb") <> 0 ->
  exists w' f c t content,
    nativeCreateDisk (Some path) size_mb os w = (Returns true, w') /\
    handles w' = handles w /\
    files w' = <[path := content]> (files w) /\
    trace w' = trace w
      ++ (Fopen path "wb", os (trace w) (Fopen path "wb"))
         :: (Fwrite path (qcow2_header size_mb), f) :: t ++ [(Fclose path, c)] /\
    (take (Z.to_nat f) (qcow2_header size_mb) = [] -> t = [] /\ content = []) /\
    (take (Z.to_nat f) (qcow2_header size_mb) <> [] ->
     exists n,
       t = [(Write path (take (Z.to_nat f) (qcow2_header size_mb)), n)] /\
       content = if c =? 0 then take (Z.to_nat f) (qcow2_header size_mb)
                 else take (Z.to_nat n) (take (Z.to_nat f) (qcow2_header size_mb))).
Proof.
  intros Hopen. unfold nativeCreateDisk.
  unfold bind at 1. unfold fopen.
  apply Z.eqb_neq in Hopen. rewrite Hopen.
  set (o := os (trace w) (Fopen path "wb")).
  set (w0 := set_files (<[path := []]> (files (log_event (Fopen path "wb", o) w)))
               (log_event (Fopen path "wb", o) w)).
  unfold bind at 1. unfold fwrite at 1. cbn [stream_path stream_buffer app snd].
  set (hdr := qcow2_header size_mb).
  set (f := os (trace w0) (Fwrite path hdr)).
  set (w1 := log_event (Fwrite path hdr, f) w0).
  unfold bind at 1. unfold fclose. cbn [stream_path stream_buffer].
  unfold bind at 1. unfold flush. cbn [stream_path stream_buffer].
  destruct (take (Z.to_nat f) hdr) as [| x buf] eqn:Ebuf.
  - unfold ret at 1. unfold bind at 1. unfold sys at 1.
    set (c := os (trace w1) (Fclose path)).
    unfold bind at 1. unfold append_file, ret.
    exists (set_files
              (<[path := default [] (files (log_event (Fclose path, c) w1) !! path)
                          ++ (if c =? 0 then [] else take (Z.to_nat 0) [])]>
                 (files (log_event (Fclose path, c) w1)))
              (log_event (Fclose path, c) w1)), f, c, [], [].
    split; [reflexivity |]. split; [reflexivity |].
    split.
    { cbn [files set_files log_event w1 w0]. unfold w1, w0.
      cbn [files set_files log_event].
      rewrite lookup_insert_eq. cbn [default].
      destruct (c =? 0); cbn [take app]; apply insert_insert_eq. }
    split.
    { unfold w1, w0. cbn [trace set_files log_event].
      rewrite <- !app_assoc. reflexivity. }
    split; [intros _; split; reflexivity | intros H; contradiction].
  - unfold sys at 1.
    set (n := os (trace w1) (Write path (x :: buf))).
    set (w2 := log_event (Write path (x :: buf), n) w1).
    unfold bind at 1. unfold sys at 1.
    set (c := os (trace w2) (Fclose path)).
    unfold bind at 1. unfold append_file, ret.
    exists (set_files
              (<[path := default [] (files (log_event (Fclose path, c) w2) !! path)
                          ++ (if c =? 0 then x :: buf
                              else take (Z.to_nat n) (x :: buf))]>
                 (files (log_event (Fclose path, c) w2)))
              (log_event (Fclose path, c) w2)),
           f, c, [(Write path (x :: buf), n)],
           (if c =? 0 then x :: buf else take (Z.to_nat n) (x :: buf)).
    split; [reflexivity |]. split; [reflexivity |].
    split.
    { unfold w2, w1, w0. cbn [files set_files log_event].
      rewrite lookup_insert_eq. cbn [default]. rewrite app_nil_l.
      apply insert_insert_eq. }
    split.
    { unfold w2, w1, w0. cbn [trace set_files log_event].
      rewrite <- !app_assoc. reflexivity. }
    rewrite Ebuf. split; [intros H; discriminate H |].
    intros _. exists n. split; reflexivity.
Qed.

Lemma take_take_prefix {A} (n k : nat) (l : list A) :
  exists m, take n (take k l) = take m l.
Proof. exists (n `min` k)%nat. apply take_take. Qed.

(** What ends up in the file is a leading part of the header, and the
    whole of it when [fwrite] reports 512 bytes and [fclose] returns 0. *)
Lemma nativeCreateDisk_content size_mb f c t content path :
  length (qcow2_header size_mb) = 512%nat ->
  (take (Z.to_nat f) (qcow2_header size_mb) = [] -> t = [] /\ content = []) ->
  (take (Z.to_nat f) (qcow2_header size_mb) <> [] ->
   exists n,
     t = [(Write path (take (Z.to_nat f) (qcow2_header size_mb)), n)] /\
     content = if c =? 0 then take (Z.to_nat f) (qcow2_header size_mb)
               else take (Z.to_nat n) (take (Z.to_nat f) (qcow2_header size_mb))) ->
  (exists k, content = take k (qcow2_header size_mb)) /\
  (f = 512 -> c = 0 -> content = qcow2_header size_mb) /\
  (forall q d r, ~ In (Fwrite q d, r) t).
Proof.
  intros Hlen Hnil Hcons.
  destruct (take (Z.to_nat f) (qcow2_header size_mb)) as [| x buf] eqn:Ebuf.
  - destruct (Hnil eq_refl) as [-> ->].
    split; [exists 0%nat; reflexivity |].
    split; [| intros q d r []].
    intros -> _. exfalso.
    apply (f_equal length) in Ebuf. rewrite length_take, Hlen in Ebuf.
    cbn in Ebuf. lia.
  - destruct (Hcons ltac:(discriminate)) as (n & -> & ->).
    split; [| split].
    + destruct (c =? 0).
      * exists (Z.to_nat f). exact (eq_sym Ebuf).
      * rewrite <- Ebuf. apply take_take_prefix.
    + intros -> ->. cbn [Z.eqb]. rewrite <- Ebuf.
      apply take_ge. rewrite Hlen. lia.
    + intros q d r [E | []]. discriminate.
Qed.

Lemma qcow2_header_length size_mb : length (qcow2_header size_mb) = 512%nat.
Proof.
  rewrite qcow2_header_spec. unfold spec_header.
  rewrite !length_app, be_bytes_length, !length_replicate. reflexivity.
Qed.



(** The result of Create Disk Image does not depend on the size. *)
Lemma nativeCreateDisk_result_any_size os w path size_mb size_mb' :
  fst (nativeCreateDisk path size_mb os w)
  = fst (nativeCreateDisk path size_mb' os w).
Proof.
  destruct path as [p |]; [| reflexivity].
  destruct (Z.eq_dec (os (trace w) (Fopen p "wb")) 0) as [E | E].
  - unfold nativeCreateDisk, bind, fopen. rewrite E. reflexivity.
  - destruct (nativeCreateDisk_run os w p size_mb E) as (w1 & ? & ? & ? & ? & -> & _).
    destruct (nativeCreateDisk_run os w p size_mb' E) as (w2 & ? & ? & ? & ? & -> & _).
    reflexivity.
Qed.

(** C10.  For a negative size Create Disk Image does what it does for any
    other size: its result is the same (true once the path string is at
    hand and the file is opened), and the header it builds and hands to
    [fwrite] carries at bytes 24-31 the big-endian encoding of the
    sign-extended size times 1,048,576 modulo 2^64: they read back as
    2^64 + size_mb * 1,048,576, not as the product itself, and for
    size_mb = -1 they are FF FF FF FF FF F0 00 00.  When [fwrite] reports
    all 512 bytes and [fclose] returns 0, that header is the file. *)
Theorem nativeCreateDisk_negative_size (os : OS) (w : World) (path : option string)
    (size_mb : Z) :
  - 2 ^ 31 <= size_mb < 0 ->
  let hdr := qcow2_header size_mb in
  take 8 (drop 24 hdr)
  = be_bytes 8 (((size_mb mod 2 ^ 64) * 1048576) mod 2 ^ 64) /\
  be_value (take 8 (drop 24 hdr)) = ((size_mb mod 2 ^ 64) * 1048576) mod 2 ^ 64 /\
  be_value (take 8 (drop 24 hdr)) = 2 ^ 64 + size_mb * 1048576 /\
  be_value (take 8 (drop 24 hdr)) <> size_mb * 1048576 /\
  (size_mb = -1 -> take 8 (drop 24 hdr) = [255; 255; 255; 255; 255; 240; 0; 0]) /\
  (forall size_mb',
     fst (nativeCreateDisk path size_mb os w)
     = fst (nativeCreateDisk path size_mb' os w)) /\
  (forall p,
     path = Some p ->
     os (trace w) (Fopen p "wb") <> 0 ->
     exists w' f c t content,
       nativeCreateDisk path size_mb os w = (Returns true, w') /\
       trace w' = trace w
         ++ (Fopen p "wb", os (trace w) (Fopen p "wb"))
            :: (Fwrite p hdr, f) :: t ++ [(Fclose p, c)] /\
       (forall q d r, ~ In (Fwrite q d, r) t) /\
       files w' !! p = Some content /\
       (f = 512 -> c = 0 -> content = hdr)).
Proof.
  intros Hsize hdr. unfold hdr.
  assert (Hfield : take 8 (drop 24 (qcow2_header size_mb))
                   = map (fun i => size_byte (size_bytes_of size_mb) i mod 256)
                       [0; 1; 2; 3; 4; 5; 6; 7]).
  { rewrite qcow2_header_shape. reflexivity. }
  assert (Hwrap : ((size_mb mod 2 ^ 64) * 1048576) mod 2 ^ 64
                  = 2 ^ 64 + size_mb * 1048576).
  { rewrite Z.mul_mod_idemp_l by lia.
    symmetry. apply Z.mod_unique with (q := -1); lia. }
  assert (Hbytes : take 8 (drop 24 (qcow2_header size_mb))
                   = be_bytes 8 (((size_mb mod 2 ^ 64) * 1048576) mod 2 ^ 64)).
  { rewrite Hfield. cbn [map be_bytes].
    rewrite <- size_bytes_of_sign_extended.
    unfold size_byte. change 255 with (Z.ones 8).
    rewrite !Z.land_ones by lia. rewrite !Z.shiftr_div_pow2 by lia.
    change (2 ^ 8) with 256. rewrite !Z.mod_mod by lia.
    reflexivity. }
  assert (Hvalue : be_value (take 8 (drop 24 (qcow2_header size_mb)))
                   = 2 ^ 64 + size_mb * 1048576).
  { rewrite Hbytes, be_value_be_bytes, Hwrap.
    apply Z.mod_small. change (256 ^ Z.of_nat 8) with (2 ^ 64). lia. }
  split; [exact Hbytes |].
  split; [rewrite Hvalue, Hwrap; reflexivity |].
  split; [exact Hvalue |].
  split; [rewrite Hvalue; lia |].
  split; [intros ->; vm_compute; reflexivity |].
  split; [intros size_mb'; apply nativeCreateDisk_result_any_size |].
  intros p -> Hopen.
  destruct (nativeCreateDisk_run os w p size_mb Hopen)
    as (w' & f & c & t & content & Hrun & _ & Hfiles & Htrace & Hnil & Hcons).
  destruct (nativeCreateDisk_content size_mb f c t content p
              (qcow2_header_length size_mb) Hnil Hcons)
    as (_ & Hwhole & Honce).
  exists w', f, c, t, content.
  split; [exact Hrun |]. split; [exact Htrace |]. split; [exact Honce |].
  split; [rewrite Hfiles; apply lookup_insert_eq | exact Hwhole].
Qed.

(** ** Worked instances *)

Lemma invalid_handle_rejected_witness :
  (7 < 0 \/ MAX_HANDLES <= 7 \/ slot (handles demo_world) 7 = None) /\
  nativeGetStatus 7 os_granting demo_world = (Returns (-1), demo_world) /\
  nativeStop 7 os_granting demo_world = (Returns false, demo_world) /\
  nativeCleanup 7 os_granting demo_world = (Returns tt, demo_world).
Proof.
  assert (H : 7 < 0 \/ MAX_HANDLES <= 7 \/ slot (handles demo_world) 7 = None).
  { right. left. unfold MAX_HANDLES. lia. }
  split; [exact H |].
  exact (invalid_handle_rejected os_granting demo_world 7 H).
Defined.

Lemma nativeStart_missing_string_witness :
  ((None : option string) = None \/ Some "/data/alpine.iso" = None
   \/ Some "/data/disk.qcow2" = None \/ Some "hostfwd=tcp::2375-:2375" = None) /\
  nativeStart None (Some "/data/alpine.iso") (Some "/data/disk.qcow2") 2048 2
    (Some "hostfwd=tcp::2375-:2375") os_granting initial_world
  = (Returns Indeterminate, initial_world).
Proof.
  assert (H : (None : option string) = None \/ Some "/data/alpine.iso" = None
              \/ Some "/data/disk.qcow2" = None
              \/ Some "hostfwd=tcp::2375-:2375" = None).
  { left. reflexivity. }
  split; [exact H |].
  exact (proj1 (nativeStart_missing_string os_granting initial_world
                  None (Some "/data/alpine.iso") (Some "/data/disk.qcow2")
                  (Some "hostfwd=tcp::2375-:2375") 2048 2 H)).
Defined.

Lemma nativeGetStatus_spec_witness :
  get_handle (handles demo_world) 0 = Some demo_handle /\
  running demo_handle <> 0 /\
  exists w2,
    nativeGetStatus 0 os_exited demo_world = (Returns 0, w2) /\
    trace w2 = [(Waitpid 4242 WNOHANG, 4242)] /\
    nativeGetStatus 0 os_exited w2 = (Returns 0, w2).
Proof.
  assert (Hh : get_handle (handles demo_world) 0 = Some demo_handle) by reflexivity.
  assert (Hr : running demo_handle <> 0) by (simpl; lia).
  split; [exact Hh |]. split; [exact Hr |].
  destruct (nativeGetStatus_spec os_exited demo_world 0) as (_ & _ & H).
  destruct (H demo_handle Hh Hr) as (_ & Hexit & _).
  assert (Hne : os_exited (trace demo_world) (Waitpid (pid demo_handle) WNOHANG) <> 0)
    by (simpl; lia).
  destruct (Hexit Hne eq_refl) as (H1 & _ & H2).
  eexists. split; [exact H1 |]. split; [reflexivity | exact H2].
Defined.

Lemma nativeStop_escalation_witness :
  get_handle (handles demo_world) 0 = Some demo_handle /\
  running demo_handle <> 0 /\
  exists w' t,
    nativeStop 0 os_exit_at_third_poll demo_world = (Returns true, w') /\
    get_handle (handles w') 0 = Some (stopped demo_handle) /\
    trace w' = (Kill 4242 SIGTERM, 0) :: t.
Proof.
  assert (Hh : get_handle (handles demo_world) 0 = Some demo_handle) by reflexivity.
  assert (Hr : running demo_handle <> 0) by (simpl; lia).
  split; [exact Hh |]. split; [exact Hr |].
  destruct (nativeStop_escalation os_exit_at_third_poll demo_world 0 demo_handle Hh Hr)
    as (w' & t & Hrun & Hstopped & _ & Ht & _).
  exists w', t. split; [exact Hrun |]. split; [exact Hstopped | exact Ht].
Defined.

(** What that call does, evaluated: two failed polls, then the exit. *)
Example nativeStop_third_poll :
  trace (snd (nativeStop 0 os_exit_at_third_poll demo_world))
  = [(Kill 4242 SIGTERM, 0);
     (Waitpid 4242 WNOHANG, 0); (Usleep 100000, 0);
     (Waitpid 4242 WNOHANG, 0); (Usleep 100000, 0);
     (Waitpid 4242 WNOHANG, 4242)].
Proof. vm_compute. reflexivity. Qed.

Lemma nativeStop_result_witness :
  exists b w',
    nativeStop 0 os_exited (mark_stopped 0 demo_handle demo_world) = (Returns b, w') /\
    b = true /\ w' = mark_stopped 0 demo_handle demo_world.
Proof.
  destruct (nativeStop_result os_exited (mark_stopped 0 demo_handle demo_world) 0)
    as (b & w' & Hrun & _ & Hidle).
  exists b, w'. split; [exact Hrun |].
  exact (Hidle (stopped demo_handle) eq_refl eq_refl).
Defined.

Lemma os_granting_success : os_level_success os_granting.
Proof. split; intros t; simpl; lia. Qed.

Lemma allocate_handle_first_fit_witness :
  wf_table (handles initial_world) /\
  os_level_success os_granting /\
  handles initial_world = empty_table /\
  exists w1 w2 w3 w4 w5,
    start demo_args os_granting initial_world = (Returns (JLong 0), w1) /\
    start demo_args os_granting w1 = (Returns (JLong 1), w2) /\
    start demo_args os_granting w2 = (Returns (JLong 2), w3) /\
    start demo_args os_granting w3 = (Returns (JLong 3), w4) /\
    start demo_args os_granting w4 = (Returns (JLong (-1)), w5).
Proof.
  assert (Hwf : wf_table (handles initial_world)) by reflexivity.
  split; [exact Hwf |]. split; [exact os_granting_success |].
  split; [reflexivity |].
  destruct (allocate_handle_first_fit os_granting initial_world Hwf) as (_ & _ & H).
  exact (H os_granting_success eq_refl demo_args demo_args demo_args demo_args demo_args).
Defined.

Lemma nativeStart_fork_failure_witness :
  wf_table (handles initial_world) /\
  allocate_handle os_fork_fails initial_world
  = (Returns 0, snd (allocate_handle os_fork_fails initial_world)) /\
  0 <= 0 /\
  os_fork_fails (trace (snd (allocate_handle os_fork_fails initial_world))) Fork < 0 /\
  exists w',
    start demo_args os_fork_fails initial_world = (Returns (JLong (-1)), w') /\
    handles w' = handles initial_world.
Proof.
  assert (Hwf : wf_table (handles initial_world)) by reflexivity.
  assert (Ha : allocate_handle os_fork_fails initial_world
               = (Returns 0, snd (allocate_handle os_fork_fails initial_world)))
    by reflexivity.
  assert (H0 : 0 <= 0) by lia.
  assert (Hf : os_fork_fails
                 (trace (snd (allocate_handle os_fork_fails initial_world))) Fork < 0)
    by (simpl; lia).
  split; [exact Hwf |]. split; [exact Ha |]. split; [exact H0 |]. split; [exact Hf |].
  destruct (nativeStart_fork_failure os_fork_fails initial_world
              (arg_binary demo_args) (arg_iso demo_args) (arg_disk demo_args)
              (arg_ports demo_args) (arg_ram_mb demo_args) (arg_cpu_cores demo_args)
              0 _ Hwf Ha H0 Hf)
    as (w' & Hrun & _ & _ & Hh & _).
  exists w'. split; [exact Hrun | exact Hh].
Defined.

Lemma nativeStart_child_exec_witness :
  - 2 ^ 31 <= 2048 < 2 ^ 31 /\
  - 2 ^ 31 <= 2 < 2 ^ 31 /\
  allocate_handle os_child initial_world
  = (Returns 0, snd (allocate_handle os_child initial_world)) /\
  0 <= 0 /\
  os_child (trace (snd (allocate_handle os_child initial_world))) Fork = 0 /\
  exists w',
    start demo_args os_child initial_world = (ImageReplaced, w') /\
    exec_calls (trace w')
    = [("/data/qemu-system-x86_64",
        ["/data/qemu-system-x86_64";
         "-machine"; "q35"; "-cpu"; "max"; "-smp"; "2"; "-m"; "2048M";
         "-cdrom"; "/data/alpine.iso";
         "-drive"; "file=%s,format=qcow2,if=virtio";
         "-boot"; "d";
         "-netdev"; "user,id=net0,hostfwd=tcp::2375-:2375";
         "-device"; "virtio-net-pci,netdev=net0";
         "-display"; "none"; "-nographic"])].
Proof.
  assert (Hram : - 2 ^ 31 <= 2048 < 2 ^ 31) by lia.
  assert (Hcores : - 2 ^ 31 <= 2 < 2 ^ 31) by lia.
  assert (Ha : allocate_handle os_child initial_world
               = (Returns 0, snd (allocate_handle os_child initial_world)))
    by reflexivity.
  assert (H0 : 0 <= 0) by lia.
  assert (Hf : os_child (trace (snd (allocate_handle os_child initial_world))) Fork = 0)
    by reflexivity.
  split; [exact Hram |]. split; [exact Hcores |]. split; [exact Ha |].
  split; [exact H0 |]. split; [exact Hf |].
  destruct (nativeStart_child_exec os_child initial_world
              (arg_binary demo_args) (arg_iso demo_args) (arg_disk demo_args)
              (arg_ports demo_args) 2048 2 0 _ Hram Hcores Ha H0 Hf)
    as (_ & _ & _ & _ & Hok & _).
  eexists. split.
  - apply Hok. vm_compute. discriminate.
  - vm_compute. reflexivity.
Defined.


Lemma nativeCreateDisk_negative_size_witness :
  - 2 ^ 31 <= -1 < 0 /\
  take 8 (drop 24 (qcow2_header (-1))) = [255; 255; 255; 255; 255; 240; 0; 0] /\
  be_value (take 8 (drop 24 (qcow2_header (-1)))) = 2 ^ 64 - 1048576 /\
  fst (nativeCreateDisk (Some "/data/disk.qcow2") (-1) os_disk_ok initial_world)
  = fst (nativeCreateDisk (Some "/data/disk.qcow2") 1024 os_disk_ok initial_world).
Proof.
  assert (Hsize : - 2 ^ 31 <= -1 < 0) by lia.
  split; [exact Hsize |].
  destruct (nativeCreateDisk_negative_size os_disk_ok initial_world
              (Some "/data/disk.qcow2") (-1) Hsize)
    as (_ & _ & Hval & _ & Hbytes & Hsame & _).
  split; [exact (Hbytes eq_refl) |].
  split; [rewrite Hval; reflexivity | exact (Hsame 1024)].
Defined.

(** The same call, evaluated: true, and the file is the header. *)
Example nativeCreateDisk_negative_size_file :
  nativeCreateDisk (Some "/data/disk.qcow2") (-1) os_disk_ok initial_world
  = (Returns true,
     snd (nativeCreateDisk (Some "/data/disk.qcow2") (-1) os_disk_ok initial_world))
  /\
  files (snd (nativeCreateDisk (Some "/data/disk.qcow2") (-1) os_disk_ok initial_world))
  !! "/data/disk.qcow2"
  = Some (qcow2_header (-1)).
Proof. split; vm_compute; reflexivity. Qed.

(** * Further properties *)

(** ** Cleanup of a valid handle *)

Lemma free_handle_noop os w handle_id :
  get_handle (handles w) handle_id = None ->
  free_handle handle_id os w = (Returns tt, w).
Proof.
  intros H. unfold free_handle, bind, get_table.
  unfold get_handle in H.
  destruct ((0 <=? handle_id) && (handle_id <? MAX_HANDLES)); [| reflexivity].
  rewrite H. reflexivity.
Qed.

Lemma nativeCleanup_run os w handle_id h :
  get_handle (handles w) handle_id = Some h ->
  exists t f,
    nativeCleanup handle_id os w
    = (Returns tt,
       mkWorld (<[Z.to_nat handle_id := None]> (handles w)) (files w)
         (trace w ++ t ++ [(Free handle_id, f)])) /\
    (running h = 0 -> t = []) /\
    (running h <> 0 ->
     exists r1 r2, t = [(Kill (pid h) SIGKILL, r1); (Waitpid (pid h) 0, r2)]).
Proof.
  intros Hh. destruct (get_handle_slot _ _ _ Hh) as [Hrange Hslot].
  unfold nativeCleanup. unfold bind at 1. unfold get_table at 1. rewrite Hh.
  destruct (running h =? 0) eqn:Hr.
  - apply Z.eqb_eq in Hr. unfold bind at 1. unfold ret at 1.
    rewrite (free_handle_allocated os w handle_id h Hrange Hslot).
    exists [], (os (trace w) (Free handle_id)).
    split; [reflexivity |]. split; [reflexivity | intros; contradiction].
  - apply Z.eqb_neq in Hr.
    unfold bind at 1. unfold bind at 1. unfold sys at 1.
    set (r1 := os (trace w) (Kill (pid h) SIGKILL)).
    set (w1 := log_event (Kill (pid h) SIGKILL, r1) w).
    unfold bind at 1. unfold sys at 1.
    set (r2 := os (trace w1) (Waitpid (pid h) 0)).
    set (w2 := log_event (Waitpid (pid h) 0, r2) w1).
    unfold ret at 1.
    rewrite (free_handle_allocated os w2 handle_id h Hrange Hslot).
    exists [(Kill (pid h) SIGKILL, r1); (Waitpid (pid h) 0, r2)],
           (os (trace w2) (Free handle_id)).
    split.
    + unfold set_handles, log_event, w2, w1. cbn [handles files trace log_event].
      rewrite <- !app_assoc. reflexivity.
    + split; [intros; contradiction |]. intros _. exists r1, r2. reflexivity.
Qed.

Lemma get_handle_range tbl handle_id :
  0 <= handle_id < MAX_HANDLES ->
  get_handle tbl handle_id = slot tbl handle_id.
Proof.
  intros H. unfold get_handle.
  destruct (0 <=? handle_id) eqn:Hlo; destruct (handle_id <? MAX_HANDLES) eqn:Hhi;
    simpl; try reflexivity; lia.
Qed.

(** X1.  Cleanup of a valid handle always empties its slot and frees the
    record, leaving every other slot and every file alone.  For a record
    marked running it first sends the forced signal and waits, blocking;
    the graceful signal is never sent.  For a record marked not running
    the release of the slot is the only system call. *)
Theorem nativeCleanup_valid (os : OS) (w : World) (handle_id : Z) (h : QemuHandle) :
  get_handle (handles w) handle_id = Some h ->
  exists w' t f,
    nativeCleanup handle_id os w = (Returns tt, w') /\
    get_handle (handles w') handle_id = None /\
    length (handles w') = length (handles w) /\
    (forall j, 0 <= j -> j <> handle_id ->
               slot (handles w') j = slot (handles w) j) /\
    files w' = files w /\
    trace w' = trace w ++ t ++ [(Free handle_id, f)] /\
    (running h = 0 -> t = []) /\
    (running h <> 0 ->
     exists r1 r2, t = [(Kill (pid h) SIGKILL, r1); (Waitpid (pid h) 0, r2)]).
Proof.
  intros Hh. destruct (get_handle_slot _ _ _ Hh) as [Hrange Hslot].
  destruct (nativeCleanup_run os w handle_id h Hh) as (t & f & Hrun & H0 & H1).
  eexists. exists t, f. split; [exact Hrun |].
  cbn [handles files trace].
  split.
  { rewrite get_handle_range by exact Hrange.
    apply slot_insert_eq. eapply slot_Some_lt; eauto. }
  split; [apply length_insert |].
  split; [intros j Hj Hne; apply slot_insert_ne; lia |].
  repeat split; assumption.
Qed.

(** X2.  After Cleanup of a valid handle the id is stale: a second
    Cleanup makes no system call (the record is not freed twice), Stop
    Process returns false and Get Status returns -1, all three leaving the
    world as it is. *)
Theorem cleanup_makes_handle_stale (os : OS) (w : World) (handle_id : Z)
    (h : QemuHandle) :
  get_handle (handles w) handle_id = Some h ->
  exists w',
    nativeCleanup handle_id os w = (Returns tt, w') /\
    nativeCleanup handle_id os w' = (Returns tt, w') /\
    nativeStop handle_id os w' = (Returns false, w') /\
    nativeGetStatus handle_id os w' = (Returns (-1), w').
Proof.
  intros Hh. destruct (get_handle_slot _ _ _ Hh) as [Hrange Hslot].
  destruct (nativeCleanup_run os w handle_id h Hh) as (t & f & Hrun & _ & _).
  eexists. split; [exact Hrun |].
  assert (Hgone : get_handle (<[Z.to_nat handle_id := None]> (handles w)) handle_id = None).
  { rewrite get_handle_range by exact Hrange.
    apply slot_insert_eq. eapply slot_Some_lt; eauto. }
  split; [apply nativeCleanup_invalid; exact Hgone |].
  split; [apply nativeStop_invalid; exact Hgone |].
  apply nativeGetStatus_invalid; exact Hgone.
Qed.

(** X3.  Cleanup makes the slot available again: when every slot below
    the handle is occupied and the allocator and the fork succeed, the
    Start Process call that follows the Cleanup returns that same handle
    id, now naming the new process. *)
Theorem cleanup_then_start_reuses_slot (os : OS) (w : World) (handle_id : Z)
    (h : QemuHandle) (a : StartArgs) :
  os_level_success os ->
  wf_table (handles w) ->
  get_handle (handles w) handle_id = Some h ->
  occupied (handles w) 0 handle_id ->
  exists w1 w2 p,
    nativeCleanup handle_id os w = (Returns tt, w1) /\
    start a os w1 = (Returns (JLong handle_id), w2) /\
    0 < p /\
    get_handle (handles w2) handle_id = Some (started p).
Proof.
  intros Hos Hwf Hh Hocc. destruct (get_handle_slot _ _ _ Hh) as [Hrange Hslot].
  pose proof (slot_Some_lt _ _ _ Hslot) as Hlt.
  destruct (nativeCleanup_run os w handle_id h Hh) as (t & f & Hrun & _ & _).
  set (w1 := mkWorld (<[Z.to_nat handle_id := None]> (handles w)) (files w)
               (trace w ++ t ++ [(Free handle_id, f)])) in *.
  destruct (start_takes_first_empty os w1 a handle_id Hos) as (p & w2 & Hstart & Hp & Hh2 & _).
  - unfold wf_table, w1 in *. cbn [handles]. rewrite length_insert. exact Hwf.
  - exact Hrange.
  - intros j Hj. unfold w1. cbn [handles].
    rewrite slot_insert_ne by lia. apply Hocc. exact Hj.
  - unfold w1. cbn [handles]. apply slot_insert_eq. exact Hlt.
  - exists w1, w2, p. split; [exact Hrun |]. split; [exact Hstart |].
    split; [exact Hp |].
    rewrite get_handle_range by exact Hrange.
    rewrite Hh2. apply slot_insert_eq.
    unfold w1. cbn [handles]. rewrite length_insert. exact Hlt.
Qed.

(** ** The unload hook *)

Lemma sweep_call_wider tbl lo hi lo' hi' c :
  lo' <= lo -> hi <= hi' ->
  sweep_call tbl lo hi c -> sweep_call tbl lo' hi' c.
Proof.
  intros Hlo Hhi [(j & h & Hj & Hs & E) | (j & h & Hj & Hs & Hr & E)].
  - left. exists j, h. repeat split; try assumption; lia.
  - right. exists j, h. repeat split; try assumption; lia.
Qed.

Lemma unload_loop_spec os :
  forall n i w,
    0 <= i ->
    exists w' t,
      unload_loop n i os w = (Returns tt, w') /\
      length (handles w') = length (handles w) /\
      files w' = files w /\
      trace w' = trace w ++ t /\
      (forall j, i <= j < i + Z.of_nat n -> slot (handles w') j = None) /\
      (forall j, 0 <= j -> ~ (i <= j < i + Z.of_nat n) ->
                 slot (handles w') j = slot (handles w) j) /\
      (forall c r, In (c, r) t -> sweep_call (handles w) i (i + Z.of_nat n) c) /\
      (forall j h, i <= j < i + Z.of_nat n -> slot (handles w) j = Some h ->
                   (exists f, In (Free j, f) t) /\
                   (running h <> 0 -> exists r, In (Kill (pid h) SIGKILL, r) t)).
Proof.
  induction n as [| n IH]; intros i w Hi.
  - exists w, []. simpl. unfold ret. rewrite app_nil_r.
    repeat split; try reflexivity; try (intros; lia); intros; contradiction.
  - cbn [unload_loop]. unfold bind at 1. unfold get_table at 1.
    destruct (slot (handles w) i) as [h |] eqn:Hs.
    + pose proof (slot_Some_lt _ _ _ Hs) as Hlt.
      (* the signal, when the record is marked running *)
      assert (Hkill : exists tk wk,
                 (if running h =? 0 then ret tt
                  else sys (Kill (pid h) SIGKILL) ;; ret tt) os w = (Returns tt, wk) /\
                 handles wk = handles w /\ files wk = files w /\
                 trace wk = trace w ++ tk /\
                 (running h = 0 -> tk = []) /\
                 (running h <> 0 -> exists r, tk = [(Kill (pid h) SIGKILL, r)])).
      { destruct (running h =? 0) eqn:Hr.
        - apply Z.eqb_eq in Hr. exists [], w. unfold ret. rewrite app_nil_r.
          repeat split. intros; contradiction.
        - apply Z.eqb_neq in Hr.
          exists [(Kill (pid h) SIGKILL, os (trace w) (Kill (pid h) SIGKILL))].
          eexists. split; [reflexivity |]. repeat split.
          + intros; contradiction.
          + intros _. eexists. reflexivity. }
      destruct Hkill as (tk & wk & Hrunk & Hhk & Hfk & Htk & Hk0 & Hk1).
      unfold bind at 1. rewrite Hrunk.
      unfold bind at 1. unfold sys at 1.
      set (f := os (trace wk) (Free i)).
      set (wf := log_event (Free i, f) wk).
      unfold bind at 1. unfold set_slot, bind, get_table, put_table.
      cbn [handles set_handles log_event].
      fold (bind (A := unit) (B := unit)).
      set (w3 := set_handles (<[Z.to_nat i := None]> (handles wf)) wf).
      destruct (IH (i + 1) w3 ltac:(lia))
        as (w' & t & Hrun & Hlen & Hf & Ht & Hcleared & Hkept & Honly & Hall).
      assert (Hh3 : handles w3 = <[Z.to_nat i := None]> (handles w)).
      { unfold w3, wf. cbn [handles set_handles log_event]. rewrite Hhk. reflexivity. }
      exists w', (tk ++ (Free i, f) :: t).
      split; [exact Hrun |].
      split; [rewrite Hlen, Hh3; apply length_insert |].
      split; [rewrite Hf; unfold w3, wf; cbn [files set_handles log_event]; exact Hfk |].
      split.
      { rewrite Ht. unfold w3, wf. cbn [trace set_handles log_event].
        rewrite Htk, <- !app_assoc. reflexivity. }
      split.
      { intros j Hj. destruct (Z.eq_dec j i) as [-> | Hne].
        - rewrite Hkept by lia. rewrite Hh3. apply slot_insert_eq. exact Hlt.
        - apply Hcleared. lia. }
      split.
      { intros j Hj Hout. rewrite Hkept by lia. rewrite Hh3.
        apply slot_insert_ne; lia. }
      split.
      { intros c r Hin. apply in_app_or in Hin. destruct Hin as [Hin | [Hin | Hin]].
        - destruct (Z.eq_dec (running h) 0) as [Hr | Hr].
          + rewrite (Hk0 Hr) in Hin. destruct Hin.
          + destruct (Hk1 Hr) as (r' & Etk). rewrite Etk in Hin.
            destruct Hin as [E | []]. injection E as <- <-.
            right. exists i, h. repeat split; try assumption; lia.
        - injection Hin as <- <-. left. exists i, h. repeat split; try assumption; lia.
        - apply Honly in Hin.
          apply sweep_call_wider with (lo' := i) (hi' := i + Z.of_nat (S n)) in Hin;
            try lia.
          destruct Hin as [(j & h' & Hj & Hsj & E) | (j & h' & Hj & Hsj & Hr & E)].
          + left. exists j, h'. repeat split; try assumption; try lia.
            rewrite Hh3 in Hsj. destruct (Z.eq_dec j i) as [-> | Hne].
            * rewrite slot_insert_eq in Hsj by exact Hlt. discriminate.
            * rewrite slot_insert_ne in Hsj by lia. exact Hsj.
          + right. exists j, h'. repeat split; try assumption; try lia.
            rewrite Hh3 in Hsj. destruct (Z.eq_dec j i) as [-> | Hne].
            * rewrite slot_insert_eq in Hsj by exact Hlt. discriminate.
            * rewrite slot_insert_ne in Hsj by lia. exact Hsj. }
      intros j h' Hj Hsj. destruct (Z.eq_dec j i) as [-> | Hne].
      * rewrite Hs in Hsj. injection Hsj as <-. split.
        -- exists f. apply in_or_app. right. left. reflexivity.
        -- intros Hr. destruct (Hk1 Hr) as (r & Etk). exists r.
           apply in_or_app. left. rewrite Etk. left. reflexivity.
      * assert (Hsj3 : slot (handles w3) j = Some h').
        { rewrite Hh3. rewrite slot_insert_ne by lia. exact Hsj. }
        destruct (Hall j h' ltac:(lia) Hsj3) as ((f' & Hin) & Hkilled).
        split.
        -- exists f'. apply in_or_app. right. right. exact Hin.
        -- intros Hr. destruct (Hkilled Hr) as (r & Hin').
           exists r. apply in_or_app. right. right. exact Hin'.
    + destruct (IH (i + 1) w ltac:(lia))
        as (w' & t & Hrun & Hlen & Hf & Ht & Hcleared & Hkept & Honly & Hall).
      exists w', t.
      split; [exact Hrun |]. split; [exact Hlen |]. split; [exact Hf |].
      split; [exact Ht |].
      split.
      { intros j Hj. destruct (Z.eq_dec j i) as [-> | Hne].
        - rewrite Hkept by lia. exact Hs.
        - apply Hcleared. lia. }
      split; [intros j Hj Hout; apply Hkept; lia |].
      split.
      { intros c r Hin. apply Honly in Hin.
        eapply sweep_call_wider; [| | exact Hin]; lia. }
      intros j h' Hj Hsj. destruct (Z.eq_dec j i) as [-> | Hne].
      * rewrite Hs in Hsj. discriminate.
      * apply Hall; [lia | exact Hsj].
Qed.

Lemma table_of_empty_slots (tbl : list (option QemuHandle)) :
  wf_table tbl ->
  (forall j, 0 <= j < MAX_HANDLES -> slot tbl j = None) ->
  tbl = empty_table.
Proof.
  intros Hwf Hnone.
  destruct tbl as [| a [| b [| c [| d [| e tbl]]]]]; try discriminate Hwf.
  pose proof (Hnone 0 ltac:(unfold MAX_HANDLES; lia)) as H0.
  pose proof (Hnone 1 ltac:(unfold MAX_HANDLES; lia)) as H1.
  pose proof (Hnone 2 ltac:(unfold MAX_HANDLES; lia)) as H2.
  pose proof (Hnone 3 ltac:(unfold MAX_HANDLES; lia)) as H3.
  change (a = None) in H0. change (b = None) in H1.
  change (c = None) in H2. change (d = None) in H3.
  subst. reflexivity.
Qed.

(** X4.  The unload hook leaves the table empty and the files alone.  The
    system calls it makes are releases of occupied slots and forced
    signals to records marked running, nothing else: no wait reaps the
    processes it kills, and no graceful signal is tried.  Every occupied
    slot is released and every record marked running is signalled. *)
Theorem JNI_OnUnload_sweeps (os : OS) (w : World) :
  wf_table (handles w) ->
  exists w' t,
    JNI_OnUnload os w = (Returns tt, w') /\
    handles w' = empty_table /\
    files w' = files w /\
    trace w' = trace w ++ t /\
    (forall c r, In (c, r) t -> sweep_call (handles w) 0 MAX_HANDLES c) /\
    (forall j h, 0 <= j < MAX_HANDLES -> slot (handles w) j = Some h ->
                 (exists f, In (Free j, f) t) /\
                 (running h <> 0 -> exists r, In (Kill (pid h) SIGKILL, r) t)).
Proof.
  intros Hwf.
  destruct (unload_loop_spec os (Z.to_nat MAX_HANDLES) 0 w ltac:(lia))
    as (w' & t & Hrun & Hlen & Hf & Ht & Hcleared & _ & Honly & Hall).
  exists w', t. split; [exact Hrun |].
  split.
  { apply table_of_empty_slots.
    - unfold wf_table in *. rewrite Hlen. exact Hwf.
    - intros j Hj. apply Hcleared. unfold MAX_HANDLES in *. lia. }
  split; [exact Hf |]. split; [exact Ht |].
  split.
  - intros c r Hin. apply Honly in Hin. exact Hin.
  - intros j h Hj Hs. apply Hall; [unfold MAX_HANDLES in *; lia | exact Hs].
Qed.

(** ** Start Process, whatever the operating system answers *)

Lemma no_kill_app t1 t2 : no_kill t1 -> no_kill t2 -> no_kill (t1 ++ t2).
Proof.
  intros H1 H2 q s r Hin. apply in_app_or in Hin.
  destruct Hin as [Hin | Hin]; [exact (H1 q s r Hin) | exact (H2 q s r Hin)].
Qed.

Lemma no_kill_callocs k : no_kill (replicate k (calloc_handle, 0)).
Proof.
  induction k as [| k IH]; intros q s r Hin; [destruct Hin |].
  destruct Hin as [E | Hin]; [discriminate | exact (IH q s r Hin)].
Qed.

(** The three ways on from the fork, for a slot [r] that holds the zeroed
    record. *)
Lemma after_fork_cases os w1 binary iso port_str ram_mb cpu_cores r :
  0 <= r < MAX_HANDLES ->
  slot (handles w1) r = Some zeroed_handle ->
  exists o w' t,
    after_fork binary iso port_str ram_mb cpu_cores r os w1 = (o, w') /\
    files w' = files w1 /\
    trace w' = trace w1 ++ t /\
    no_kill t /\
    ((o = Returns (JLong (-1)) /\
      handles w' = <[Z.to_nat r := None]> (handles w1))
     \/
     (exists p, 0 < p /\ o = Returns (JLong r) /\
                handles w' = <[Z.to_nat r := Some (started p)]> (handles w1) /\
                t = [(Fork, p)])
     \/
     ((o = ImageReplaced \/ o = ProcessExited 1) /\ handles w' = handles w1)).
Proof.
  intros Hr Hs. unfold after_fork. unfold bind at 1. unfold sys at 1.
  set (p := os (trace w1) Fork).
  set (w2 := log_event (Fork, p) w1).
  assert (Hs2 : slot (handles w2) r = Some zeroed_handle) by exact Hs.
  destruct (p <? 0) eqn:Eneg.
  - unfold bind at 1.
    rewrite (free_handle_allocated os w2 r zeroed_handle Hr Hs2).
    do 3 eexists. split; [reflexivity |].
    split; [reflexivity |].
    split; [unfold w2; cbn [trace set_handles log_event];
            rewrite <- app_assoc; reflexivity |].
    split.
    + intros q s x [E | [E | []]]; discriminate.
    + left. split; reflexivity.
  - apply Z.ltb_ge in Eneg. destruct (p =? 0) eqn:Ezero.
    + unfold bind at 1. unfold execlp.
      set (argv := qemu_argv binary iso port_str ram_mb cpu_cores).
      set (e := os (trace w2) (Execlp binary argv)).
      set (w3 := log_event (Execlp binary argv, e) w2).
      destruct (e =? -1).
      * do 3 eexists. split; [reflexivity |].
        split; [reflexivity |].
        split; [unfold w3, w2; cbn [trace log_event];
                rewrite <- !app_assoc; reflexivity |].
        split.
        -- intros q s x [E | [E | [E | []]]]; discriminate.
        -- right. right. split; [right; reflexivity | reflexivity].
      * do 3 eexists. split; [reflexivity |].
        split; [reflexivity |].
        split; [unfold w3, w2; cbn [trace log_event];
                rewrite <- !app_assoc; reflexivity |].
        split.
        -- intros q s x [E | [E | []]]; discriminate.
        -- right. right. split; [left; reflexivity | reflexivity].
    + apply Z.eqb_neq in Ezero.
      rewrite (store_pid_running os w2 r zeroed_handle p Hs2).
      do 3 eexists. split; [reflexivity |].
      split; [reflexivity |].
      split; [reflexivity |].
      split.
      * intros q s x [E | []]; discriminate.
      * right. left. exists p. repeat split. lia.
Qed.

(** Every way a Start Process call with its four strings can go. *)
Lemma nativeStart_cases os w binary iso disk port_str ram_mb cpu_cores :
  wf_table (handles w) ->
  exists o w' t,
    nativeStart (Some binary) (Some iso) (Some disk) ram_mb cpu_cores (Some port_str) os w
    = (o, w') /\
    files w' = files w /\
    trace w' = trace w ++ t /\
    no_kill t /\
    ((o = Returns (JLong (-1)) /\ handles w' = handles w)
     \/
     (exists r p,
        0 <= r < MAX_HANDLES /\ slot (handles w) r = None /\ 0 < p /\
        o = Returns (JLong r) /\
        handles w' = <[Z.to_nat r := Some (started p)]> (handles w) /\
        In (Fork, p) t)
     \/
     (exists r,
        0 <= r < MAX_HANDLES /\ slot (handles w) r = None /\
        (o = ImageReplaced \/ o = ProcessExited 1) /\
        handles w' = <[Z.to_nat r := Some zeroed_handle]> (handles w))).
Proof.
  intros Hwf.
  destruct (allocate_handle_loop_spec os (Z.to_nat MAX_HANDLES) 0 w)
    as (r & w1 & Ha & Hf1 & Hcase).
  fold allocate_handle in Ha.
  destruct Hcase as [(Hr & Hh1 & Ht1) | (Hr & Hs & Hh1 & p0 & Hp0 & Ht1)].
  - rewrite (nativeStart_no_slot os w binary iso disk port_str ram_mb cpu_cores r w1 Ha)
      by lia.
    subst r. do 3 eexists. split; [reflexivity |].
    split; [exact Hf1 |]. split; [exact Ht1 |].
    split; [apply no_kill_callocs |].
    left. split; [reflexivity | exact Hh1].
  - assert (Hr4 : 0 <= r < MAX_HANDLES) by (unfold MAX_HANDLES in *; lia).
    assert (Hlt : (Z.to_nat r < length (handles w))%nat)
      by (unfold wf_table, MAX_HANDLES in *; lia).
    assert (Hs1 : slot (handles w1) r = Some zeroed_handle)
      by (rewrite Hh1; apply slot_insert_eq; exact Hlt).
    rewrite (nativeStart_allocated os w binary iso disk port_str ram_mb cpu_cores r w1 Ha)
      by lia.
    destruct (after_fork_cases os w1 binary iso port_str ram_mb cpu_cores r Hr4 Hs1)
      as (o & w' & t & Hrun & Hf & Ht & Hnk & Hcase).
    exists o, w'. eexists. split; [exact Hrun |].
    split; [rewrite Hf; exact Hf1 |].
    split; [rewrite Ht, Ht1, <- !app_assoc; reflexivity |].
    split.
    { apply no_kill_app; [apply no_kill_callocs |].
      apply no_kill_app; [| exact Hnk].
      intros q s x [E | []]. discriminate. }
    destruct Hcase as [(Ho & Hh) | [(p & Hp & Ho & Hh & Et) | (Ho & Hh)]].
    + left. split; [exact Ho |].
      rewrite Hh, Hh1, list_insert_insert_eq. rewrite <- Hs. apply slot_insert_same.
    + right. left. exists r, p. repeat split; try assumption; try lia.
      * rewrite Hh, Hh1, list_insert_insert_eq. reflexivity.
      * apply in_or_app. right. apply in_or_app. right. rewrite Et. left. reflexivity.
    + right. right. exists r. repeat split; try assumption; try lia.
      rewrite Hh. exact Hh1.
Qed.

(** X5.  Whatever the operating system answers and however the call
    ends (in the parent or in the child), Start Process sends no signal,
    changes no file, keeps the table at four slots and leaves every
    occupied slot with the record it had. *)
Theorem nativeStart_keeps_handles (os : OS) (w : World)
    (qemu_binary iso_path disk_path ports : option string) (ram_mb cpu_cores : Z) :
  wf_table (handles w) ->
  exists o w' t,
    nativeStart qemu_binary iso_path disk_path ram_mb cpu_cores ports os w = (o, w') /\
    files w' = files w /\
    wf_table (handles w') /\
    trace w' = trace w ++ t /\
    no_kill t /\
    (forall j h, 0 <= j -> slot (handles w) j = Some h ->
                 slot (handles w') j = Some h).
Proof.
  intros Hwf.
  assert (Hnone : exists t,
            files w = files w /\ wf_table (handles w) /\ trace w = trace w ++ t /\
            no_kill t /\
            (forall j h, 0 <= j -> slot (handles w) j = Some h ->
                         slot (handles w) j = Some h)).
  { exists []. rewrite app_nil_r.
    split; [reflexivity |]. split; [exact Hwf |]. split; [reflexivity |].
    split; [intros q s r [] | intros j h _ H; exact H]. }
  destruct qemu_binary as [binary |], iso_path as [iso |], disk_path as [disk |],
    ports as [port_str |];
    try (destruct Hnone as (t & Hnone);
         exists (Returns Indeterminate), w, t;
         split; [reflexivity | exact Hnone]).
  clear Hnone.
  destruct (nativeStart_cases os w binary iso disk port_str ram_mb cpu_cores Hwf)
    as (o & w' & t & Hrun & Hf & Ht & Hnk & Hcase).
  exists o, w', t. split; [exact Hrun |]. split; [exact Hf |].
  assert (Hkeep : forall r x, slot (handles w) r = None -> 0 <= r ->
            handles w' = <[Z.to_nat r := x]> (handles w) ->
            wf_table (handles w') /\
            (forall j h, 0 <= j -> slot (handles w) j = Some h ->
                         slot (handles w') j = Some h)).
  { intros r x Hs Hr Hh. split.
    - unfold wf_table in *. rewrite Hh, length_insert. exact Hwf.
    - intros j h Hj Hsj. rewrite Hh. rewrite slot_insert_ne; [exact Hsj | lia | lia |].
      intros ->. rewrite Hs in Hsj. discriminate. }
  destruct Hcase as [(_ & Hh) | [(r & p & Hr & Hs & _ & _ & Hh & _) | (r & Hr & Hs & _ & Hh)]].
  - rewrite Hh. repeat split; try assumption. intros j h _ Hsj. exact Hsj.
  - destruct (Hkeep r _ Hs ltac:(lia) Hh) as [H1 H2]. repeat split; assumption.
  - destruct (Hkeep r _ Hs ltac:(lia) Hh) as [H1 H2]. repeat split; assumption.
Qed.

(** X6.  With its four strings obtained, what Start Process returns to
    its caller is determinate: -1 or a handle id in [0,4).  A result that
    is not negative is valid at once: its slot was empty before the call,
    and it now names a record marked running whose process id is the
    positive answer of the fork.  A Get Status that follows, with the
    process still alive (the non-blocking wait answers 0), reports
    running.  (With a string missing the value returned is indeterminate
    and none of this holds of it.) *)
Theorem nativeStart_returns_valid_handle (os : OS) (w : World)
    (binary iso disk port_str : string) (ram_mb cpu_cores : Z) :
  wf_table (handles w) ->
  exists o w',
    nativeStart (Some binary) (Some iso) (Some disk) ram_mb cpu_cores
      (Some port_str) os w = (o, w') /\
    (forall v, o = Returns v ->
       v = JLong (-1) \/ exists r, v = JLong r /\ 0 <= r < MAX_HANDLES) /\
    (forall r, o = Returns (JLong r) -> 0 <= r ->
       get_handle (handles w) r = None /\
       exists p,
         0 < p /\
         In (Fork, p) (trace w') /\
         get_handle (handles w') r = Some (started p) /\
         (os (trace w') (Waitpid p WNOHANG) = 0 ->
          fst (nativeGetStatus r os w') = Returns 1)).
Proof.
  intros Hwf.
  destruct (nativeStart_cases os w binary iso disk port_str ram_mb cpu_cores Hwf)
    as (o & w' & t & Hrun & _ & Ht & _ & Hcase).
  exists o, w'. split; [exact Hrun |].
  destruct Hcase as [(Ho & _) | [(r' & p & Hr' & Hs & Hp & Ho & Hh & Hin) | (r' & _ & _ & Ho & _)]].
  - subst o. split.
    + intros v E. injection E as <-. left. reflexivity.
    + intros r E Hr. injection E as <-. lia.
  - subst o. split.
    + intros v E. injection E as <-. right. exists r'. split; [reflexivity | exact Hr'].
    + intros r E _. injection E as <-.
      assert (Hg : get_handle (handles w') r' = Some (started p)).
      { rewrite get_handle_range by exact Hr'. rewrite Hh.
        apply slot_insert_eq. unfold wf_table, MAX_HANDLES in *. lia. }
      split; [rewrite get_handle_range by exact Hr'; exact Hs |].
      exists p. split; [exact Hp |].
      split; [rewrite Ht; apply in_or_app; right; exact Hin |].
      split; [exact Hg |].
      intros Halive. unfold nativeGetStatus, bind, get_table, sys.
      rewrite Hg. cbn [running started pid]. simpl (1 =? 0). cbv beta iota.
      rewrite Halive. reflexivity.
  - split.
    + intros v E. destruct Ho as [Ho | Ho]; rewrite Ho in E; discriminate E.
    + intros r E. destruct Ho as [Ho | Ho]; rewrite Ho in E; discriminate E.
Qed.

(** X7.  With all four slots occupied, Start Process gives up before it
    asks the operating system for anything: no storage is requested, no
    process is forked, the world is unchanged and the result is -1. *)
Theorem nativeStart_full_table (os : OS) (w : World)
    (binary iso disk port_str : string) (ram_mb cpu_cores : Z) :
  occupied (handles w) 0 MAX_HANDLES ->
  nativeStart (Some binary) (Some iso) (Some disk) ram_mb cpu_cores (Some port_str) os w
  = (Returns (JLong (-1)), w).
Proof.
  intros Hocc. apply nativeStart_no_slot; [| lia].
  unfold allocate_handle. apply allocate_handle_loop_full. exact Hocc.
Qed.

(** ** Stop Process and Get Status, composed and bounded *)

Lemma get_handle_insert tbl handle_id h x :
  get_handle tbl handle_id = Some h ->
  get_handle (<[Z.to_nat handle_id := x]> tbl) handle_id = x.
Proof.
  intros Hh. destruct (get_handle_slot _ _ _ Hh) as [Hrange Hslot].
  rewrite get_handle_range by exact Hrange.
  apply slot_insert_eq. eapply slot_Some_lt; eauto.
Qed.

(** X8.  After Stop Process on any valid handle, the record is marked not
    running: a Get Status that follows returns 0 and a second Stop
    Process returns true, both without any system call. *)
Theorem stop_then_status (os : OS) (w : World) (handle_id : Z) (h : QemuHandle) :
  get_handle (handles w) handle_id = Some h ->
  exists w',
    nativeStop handle_id os w = (Returns true, w') /\
    get_handle (handles w') handle_id = Some (stopped h) /\
    nativeGetStatus handle_id os w' = (Returns 0, w') /\
    nativeStop handle_id os w' = (Returns true, w').
Proof.
  intros Hh.
  assert (Hafter : forall w', get_handle (handles w') handle_id = Some (stopped h) ->
            nativeGetStatus handle_id os w' = (Returns 0, w') /\
            nativeStop handle_id os w' = (Returns true, w')).
  { intros w' Hg. split.
    - unfold nativeGetStatus, bind, get_table. rewrite Hg. reflexivity.
    - eapply nativeStop_not_running; [exact Hg | reflexivity]. }
  destruct (Z.eq_dec (running h) 0) as [Hr | Hr].
  - assert (Hsame : stopped h = h) by (destruct h; cbn in *; subst; reflexivity).
    exists w. split; [eapply nativeStop_not_running; eauto |].
    rewrite Hsame. split; [exact Hh |]. apply Hafter. rewrite Hsame. exact Hh.
  - destruct (nativeStop_running os w handle_id h Hh Hr) as (w' & t & Hrun & Hhs & _).
    assert (Hg : get_handle (handles w') handle_id = Some (stopped h))
      by (rewrite Hhs; eapply get_handle_insert; eauto).
    exists w'. split; [exact Hrun |]. split; [exact Hg |]. apply Hafter. exact Hg.
Qed.

Lemma slept_app t1 t2 : slept (t1 ++ t2) = slept t1 + slept t2.
Proof.
  induction t1 as [| [c r] t1 IH]; [reflexivity |].
  destruct c; cbn [app slept]; rewrite IH; lia.
Qed.

Lemma failed_polls_slept p k t :
  failed_polls p k t -> slept t = 100000 * Z.of_nat k.
Proof.
  induction 1 as [| k r u t Hr Hp IH]; [reflexivity |].
  cbn [slept]. rewrite IH. lia.
Qed.

Lemma failed_polls_calls p k t :
  failed_polls p k t ->
  forall c r, In (c, r) t -> c = Waitpid p WNOHANG \/ c = Usleep 100000.
Proof.
  induction 1 as [| k r u t Hr Hp IH]; intros c x Hin; [destruct Hin |].
  destruct Hin as [E | [E | Hin]].
  - injection E as <- <-. left. reflexivity.
  - injection E as <- <-. right. reflexivity.
  - exact (IH c x Hin).
Qed.

(** X9.  Stop Process always returns, and within bounds: it asks for at
    most 5,000,000 microseconds of sleep in all; every signal and every
    wait it makes is for the process of its own handle; and all it does
    to the world besides is mark that handle's record not running (other
    slots, process ids and files stay as they are). *)
Theorem nativeStop_bounded (os : OS) (w : World) (handle_id : Z) :
  exists b w' t,
    nativeStop handle_id os w = (Returns b, w') /\
    marks_at_most handle_id w w' /\
    trace w' = trace w ++ t /\
    0 <= slept t <= 5000000 /\
    (forall c r, In (c, r) t ->
       exists h, get_handle (handles w) handle_id = Some h /\ running h <> 0 /\
                 stop_call (pid h) c).
Proof.
  destruct (get_handle (handles w) handle_id) as [h |] eqn:Hh.
  - destruct (Z.eq_dec (running h) 0) as [Hr | Hr].
    + exists true, w, []. rewrite app_nil_r.
      split; [eapply nativeStop_not_running; eauto |].
      split; [split; [reflexivity | left; reflexivity] |].
      split; [reflexivity |]. split; [cbn; lia |]. intros c r [].
    + destruct (nativeStop_running os w handle_id h Hh Hr)
        as (w' & t & Hrun & Hhs & Hf & Ht & Hshape).
      exists true, w'. eexists. split; [exact Hrun |].
      split; [split; [exact Hf | right; exists h; repeat split; assumption] |].
      split; [exact Ht |].
      destruct Hshape as [(_ & k & polls & Hk & Hp & Et)
                         | [(_ & polls & r1 & r2 & Hp & Et) | (_ & r1 & r2 & Et)]];
        subst t.
      * split.
        { cbn [slept]. rewrite slept_app, (failed_polls_slept _ _ _ Hp).
          cbn [slept]. lia. }
        intros c r Hin. exists h. split; [reflexivity |]. split; [exact Hr |].
        destruct Hin as [E | Hin]; [injection E as <- <-; left; reflexivity |].
        apply in_app_or in Hin. destruct Hin as [Hin | [E | []]].
        -- destruct (failed_polls_calls _ _ _ Hp c r Hin) as [-> | ->];
             unfold stop_call; tauto.
        -- injection E as <- <-. unfold stop_call; tauto.
      * split.
        { cbn [slept]. rewrite slept_app, (failed_polls_slept _ _ _ Hp).
          cbn [slept]. lia. }
        intros c r Hin. exists h. split; [reflexivity |]. split; [exact Hr |].
        destruct Hin as [E | Hin]; [injection E as <- <-; left; reflexivity |].
        apply in_app_or in Hin. destruct Hin as [Hin | [E | [E | []]]].
        -- destruct (failed_polls_calls _ _ _ Hp c r Hin) as [-> | ->];
             unfold stop_call; tauto.
        -- injection E as <- <-. unfold stop_call; tauto.
        -- injection E as <- <-. unfold stop_call; tauto.
      * split; [cbn [slept]; lia |].
        intros c r Hin. exists h. split; [reflexivity |]. split; [exact Hr |].
        destruct Hin as [E | [E | [E | []]]]; injection E as <- <-;
          unfold stop_call; tauto.
  - exists false, w, []. rewrite app_nil_r.
    split; [apply nativeStop_invalid; exact Hh |].
    split; [split; [reflexivity | left; reflexivity] |].
    split; [reflexivity |]. split; [cbn; lia |]. intros c r [].
Qed.

(** X10.  Get Status never blocks, sleeps or signals.  For an invalid
    handle it returns -1 and for a record marked not running 0, in both
    cases without any system call and without any change.  For a record
    marked running it makes exactly one system call, a non-blocking wait
    for the process of its handle, and goes by the answer: 0 gives 1,
    the (non-zero) process id gives 0 and marks that record not running,
    anything else gives -1; marking the record in the second case is the
    only change it ever makes to the table, and it never changes a
    file. *)
Theorem nativeGetStatus_never_blocks (os : OS) (w : World) (handle_id : Z) :
  exists z w' t,
    nativeGetStatus handle_id os w = (Returns z, w') /\
    files w' = files w /\
    trace w' = trace w ++ t /\
    (get_handle (handles w) handle_id = None ->
     z = -1 /\ t = [] /\ handles w' = handles w) /\
    (forall h,
       get_handle (handles w) handle_id = Some h -> running h = 0 ->
       z = 0 /\ t = [] /\ handles w' = handles w) /\
    (forall h,
       get_handle (handles w) handle_id = Some h -> running h <> 0 ->
       exists r,
         r = os (trace w) (Waitpid (pid h) WNOHANG) /\
         t = [(Waitpid (pid h) WNOHANG, r)] /\
         (r = 0 -> z = 1 /\ handles w' = handles w) /\
         (r <> 0 -> r = pid h ->
          z = 0 /\
          handles w' = <[Z.to_nat handle_id := Some (stopped h)]> (handles w)) /\
         (r <> 0 -> r <> pid h -> z = -1 /\ handles w' = handles w)).
Proof.
  unfold nativeGetStatus, bind, get_table.
  destruct (get_handle (handles w) handle_id) as [h |] eqn:Hh.
  - destruct (get_handle_slot _ _ _ Hh) as [Hrange Hslot].
    destruct (running h =? 0) eqn:Hr.
    + apply Z.eqb_eq in Hr.
      exists 0, w, []. rewrite app_nil_r. unfold ret.
      split; [reflexivity |]. split; [reflexivity |]. split; [reflexivity |].
      split; [discriminate |].
      split.
      * intros h' E _. repeat split.
      * intros h' E Hr'. injection E as <-. contradiction.
    + apply Z.eqb_neq in Hr. unfold sys.
      set (r := os (trace w) (Waitpid (pid h) WNOHANG)).
      set (w1 := log_event (Waitpid (pid h) WNOHANG, r) w).
      destruct (r =? 0) eqn:E0.
      * apply Z.eqb_eq in E0.
        exists 1, w1, [(Waitpid (pid h) WNOHANG, r)]. unfold ret.
        split; [reflexivity |]. split; [reflexivity |]. split; [reflexivity |].
        split; [discriminate |].
        split; [intros h' E Hr'; injection E as <-; contradiction |].
        intros h' E _. injection E as <-. exists r.
        split; [reflexivity |]. split; [reflexivity |].
        split; [intros _; split; reflexivity |].
        split; intros Hne; contradiction.
      * apply Z.eqb_neq in E0. destruct (r =? pid h) eqn:Ep.
        -- apply Z.eqb_eq in Ep.
           rewrite (store_running_0 os w1 handle_id h Hslot). unfold ret.
           exists 0, (mark_stopped handle_id h w1), [(Waitpid (pid h) WNOHANG, r)].
           split; [reflexivity |]. split; [reflexivity |]. split; [reflexivity |].
           split; [discriminate |].
           split; [intros h' E Hr'; injection E as <-; contradiction |].
           intros h' E _. injection E as <-. exists r.
           split; [reflexivity |]. split; [reflexivity |].
           split; [intros H0; contradiction |].
           split; [intros _ _; split; reflexivity |].
           intros _ Hne. contradiction.
        -- apply Z.eqb_neq in Ep.
           exists (-1), w1, [(Waitpid (pid h) WNOHANG, r)]. unfold ret.
           split; [reflexivity |]. split; [reflexivity |]. split; [reflexivity |].
           split; [discriminate |].
           split; [intros h' E Hr'; injection E as <-; contradiction |].
           intros h' E _. injection E as <-. exists r.
           split; [reflexivity |]. split; [reflexivity |].
           split; [intros H0; contradiction |].
           split; [intros _ He; contradiction |].
           intros _ _. split; reflexivity.
  - exists (-1), w, []. rewrite app_nil_r. unfold ret.
    split; [reflexivity |]. split; [reflexivity |]. split; [reflexivity |].
    split; [intros _; repeat split |].
    split; intros h E; discriminate E.
Qed.

(** ** An invariant of every run of the bridge *)

Lemma pids_positive_insert tbl r x :
  0 <= r ->
  pids_positive tbl ->
  (forall h, x = Some h -> running h <> 0 -> 0 < pid h) ->
  pids_positive (<[Z.to_nat r := x]> tbl).
Proof.
  intros Hr Hinv Hx j h Hj Hs Hrun.
  destruct (Z.eq_dec j r) as [-> | Hne].
  - destruct (lt_dec (Z.to_nat r) (length tbl)) as [Hlt | Hge].
    + rewrite slot_insert_eq in Hs by exact Hlt. exact (Hx h Hs Hrun).
    + rewrite list_insert_ge in Hs by lia. exact (Hinv r h Hj Hs Hrun).
  - rewrite slot_insert_ne in Hs by lia. exact (Hinv j h Hj Hs Hrun).
Qed.

Lemma kills_positive_app t1 t2 :
  kills_positive t1 -> kills_positive t2 -> kills_positive (t1 ++ t2).
Proof.
  intros H1 H2 q s r Hin. apply in_app_or in Hin.
  destruct Hin as [Hin | Hin]; [exact (H1 q s r Hin) | exact (H2 q s r Hin)].
Qed.

Lemma no_kill_kills_positive t : no_kill t -> kills_positive t.
Proof. intros H q s r Hin. destruct (H q s r Hin). Qed.

Lemma bridge_inv_intro w w' t :
  bridge_inv w ->
  wf_table (handles w') ->
  pids_positive (handles w') ->
  trace w' = trace w ++ t ->
  kills_positive t ->
  bridge_inv w'.
Proof.
  intros (_ & _ & Hk) Hwf Hp Ht Hkt. split; [exact Hwf |]. split; [exact Hp |].
  rewrite Ht. apply kills_positive_app; assumption.
Qed.

Lemma nativeCreateDisk_inv os w path size_mb :
  bridge_inv w -> bridge_inv (snd (nativeCreateDisk path size_mb os w)).
Proof.
  intros Hinv. pose proof Hinv as (Hwf & Hp & Hk).
  destruct path as [path |]; [| exact Hinv].
  destruct (Z.eq_dec (os (trace w) (Fopen path "wb")) 0) as [E | E].
  - unfold nativeCreateDisk, bind, fopen. rewrite E. cbn [Z.eqb snd].
    eapply bridge_inv_intro with (t := [(Fopen path "wb", 0)]);
      [exact Hinv | exact Hwf | exact Hp | reflexivity |].
    intros q s r [H | []]. discriminate.
  - destruct (nativeCreateDisk_run os w path size_mb E)
      as (w' & f & c & t & content & Hrun & Hh & _ & Ht & Hnil & Hcons).
    rewrite Hrun. cbn [snd].
    eapply bridge_inv_intro; [exact Hinv | rewrite Hh; exact Hwf
                             | rewrite Hh; exact Hp | exact Ht |].
    intros q s r [H | [H | Hin]]; try discriminate.
    apply in_app_or in Hin. destruct Hin as [Hin | [H | []]]; [| discriminate].
    destruct (take (Z.to_nat f) (qcow2_header size_mb)) as [| x buf].
    + destruct (Hnil eq_refl) as [-> _]. destruct Hin.
    + destruct (Hcons ltac:(discriminate)) as (n & -> & _).
      destruct Hin as [H | []]. discriminate.
Qed.

Lemma nativeStart_inv os w b i d ram cores ports :
  bridge_inv w -> bridge_inv (snd (nativeStart b i d ram cores ports os w)).
Proof.
  intros Hinv. pose proof Hinv as (Hwf & Hp & Hk).
  destruct b as [binary |], i as [iso |], d as [disk |], ports as [port_str |];
    try exact Hinv.
  destruct (nativeStart_cases os w binary iso disk port_str ram cores Hwf)
    as (o & w' & t & Hrun & _ & Ht & Hnk & Hcase).
  rewrite Hrun. cbn [snd].
  assert (Hkt : kills_positive t) by (apply no_kill_kills_positive; exact Hnk).
  destruct Hcase as [(_ & Hh) | [(r & p & Hr & Hs & Hpos & _ & Hh & _) | (r & Hr & Hs & _ & Hh)]].
  - eapply bridge_inv_intro; [exact Hinv | rewrite Hh; exact Hwf
                             | rewrite Hh; exact Hp | exact Ht | exact Hkt].
  - eapply bridge_inv_intro; [exact Hinv | | | exact Ht | exact Hkt]; rewrite Hh.
    + unfold wf_table in *. rewrite length_insert. exact Hwf.
    + apply pids_positive_insert; [lia | exact Hp |].
      intros h E _. injection E as <-. exact Hpos.
  - eapply bridge_inv_intro; [exact Hinv | | | exact Ht | exact Hkt]; rewrite Hh.
    + unfold wf_table in *. rewrite length_insert. exact Hwf.
    + apply pids_positive_insert; [lia | exact Hp |].
      intros h E Hrun'. injection E as <-. exfalso. apply Hrun'. reflexivity.
Qed.

Lemma stopped_inv tbl handle_id h :
  wf_table tbl -> pids_positive tbl -> 0 <= handle_id ->
  wf_table (<[Z.to_nat handle_id := Some (stopped h)]> tbl) /\
  pids_positive (<[Z.to_nat handle_id := Some (stopped h)]> tbl).
Proof.
  intros Hwf Hp Hr. split.
  - unfold wf_table in *. rewrite length_insert. exact Hwf.
  - apply pids_positive_insert; [exact Hr | exact Hp |].
    intros h' E Hrun. injection E as <-. exfalso. apply Hrun. reflexivity.
Qed.

Lemma nativeStop_inv os w handle_id :
  bridge_inv w -> bridge_inv (snd (nativeStop handle_id os w)).
Proof.
  intros Hinv. pose proof Hinv as (Hwf & Hp & Hk).
  destruct (get_handle (handles w) handle_id) as [h |] eqn:Hh.
  - destruct (Z.eq_dec (running h) 0) as [Hr | Hr].
    + rewrite (nativeStop_not_running os w handle_id h Hh Hr). exact Hinv.
    + destruct (get_handle_slot _ _ _ Hh) as [Hrange Hslot].
      pose proof (Hp handle_id h ltac:(lia) Hslot Hr) as Hpos.
      destruct (nativeStop_running os w handle_id h Hh Hr)
        as (w' & t & Hrun & Hhs & _ & Ht & Hshape).
      rewrite Hrun. cbn [snd].
      destruct (stopped_inv (handles w) handle_id h Hwf Hp ltac:(lia)) as [Hwf' Hp'].
      eapply bridge_inv_intro; [exact Hinv | rewrite Hhs; exact Hwf'
                               | rewrite Hhs; exact Hp' | exact Ht |].
      intros q s r [E | Hin]; [injection E as <- _ _; exact Hpos |].
      destruct Hshape as [(_ & k & polls & _ & Hpolls & Et)
                         | [(_ & polls & r1 & r2 & Hpolls & Et) | (_ & r1 & r2 & Et)]];
        subst t.
      * apply in_app_or in Hin. destruct Hin as [Hin | [E | []]]; [| discriminate].
        destruct (failed_polls_calls _ _ _ Hpolls _ _ Hin); discriminate.
      * apply in_app_or in Hin. destruct Hin as [Hin | [E | [E | []]]];
          [| injection E as <- _ _; exact Hpos | discriminate].
        destruct (failed_polls_calls _ _ _ Hpolls _ _ Hin); discriminate.
      * destruct Hin as [E | [E | []]];
          [injection E as <- _ _; exact Hpos | discriminate].
  - rewrite (nativeStop_invalid os w handle_id Hh). exact Hinv.
Qed.

Lemma nativeGetStatus_inv os w handle_id :
  bridge_inv w -> bridge_inv (snd (nativeGetStatus handle_id os w)).
Proof.
  intros Hinv. pose proof Hinv as (Hwf & Hp & Hk).
  unfold nativeGetStatus, bind, get_table.
  destruct (get_handle (handles w) handle_id) as [h |] eqn:Hh; [| exact Hinv].
  destruct (get_handle_slot _ _ _ Hh) as [Hrange Hslot].
  destruct (running h =? 0); [exact Hinv |].
  unfold sys.
  set (r := os (trace w) (Waitpid (pid h) WNOHANG)).
  set (w1 := log_event (Waitpid (pid h) WNOHANG, r) w).
  assert (Hinv1 : bridge_inv w1).
  { eapply bridge_inv_intro with (t := [(Waitpid (pid h) WNOHANG, r)]);
      [exact Hinv | exact Hwf | exact Hp | reflexivity |].
    intros q s x [E | []]. discriminate. }
  destruct (r =? 0); [exact Hinv1 |].
  destruct (r =? pid h); [| exact Hinv1].
  rewrite (store_running_0 os w1 handle_id h Hslot). cbn [snd ret].
  destruct (stopped_inv (handles w1) handle_id h Hwf Hp ltac:(lia)) as [Hwf' Hp'].
  destruct Hinv1 as (_ & _ & Hk1).
  split; [exact Hwf' |]. split; [exact Hp' | exact Hk1].
Qed.

Lemma nativeCleanup_inv os w handle_id :
  bridge_inv w -> bridge_inv (snd (nativeCleanup handle_id os w)).
Proof.
  intros Hinv. pose proof Hinv as (Hwf & Hp & Hk).
  destruct (get_handle (handles w) handle_id) as [h |] eqn:Hh.
  - destruct (get_handle_slot _ _ _ Hh) as [Hrange Hslot].
    destruct (nativeCleanup_run os w handle_id h Hh) as (t & f & Hrun & H0 & H1).
    rewrite Hrun. cbn [snd].
    eapply bridge_inv_intro with (t := t ++ [(Free handle_id, f)]);
      [exact Hinv | | | reflexivity |]; cbn [handles].
    + unfold wf_table in *. rewrite length_insert. exact Hwf.
    + apply pids_positive_insert; [lia | exact Hp |]. intros h' E. discriminate.
    + apply kills_positive_app; [| intros q s r [E | []]; discriminate].
      destruct (Z.eq_dec (running h) 0) as [Hr | Hr].
      * rewrite (H0 Hr). intros q s r [].
      * destruct (H1 Hr) as (r1 & r2 & ->).
        intros q s r [E | [E | []]]; [| discriminate].
        injection E as <- _ _. exact (Hp handle_id h ltac:(lia) Hslot Hr).
  - rewrite (nativeCleanup_invalid os w handle_id Hh). exact Hinv.
Qed.

Lemma JNI_OnUnload_inv os w :
  bridge_inv w -> bridge_inv (snd (JNI_OnUnload os w)).
Proof.
  intros Hinv. pose proof Hinv as (Hwf & Hp & Hk).
  destruct (unload_loop_spec os (Z.to_nat MAX_HANDLES) 0 w ltac:(lia))
    as (w' & t & Hrun & Hlen & _ & Ht & Hcleared & Hkept & Honly & _).
  unfold JNI_OnUnload. rewrite Hrun. cbn [snd].
  eapply bridge_inv_intro; [exact Hinv | | | exact Ht |].
  - unfold wf_table in *. rewrite Hlen. exact Hwf.
  - intros j h Hj Hs Hr.
    destruct (Z_lt_dec j (0 + Z.of_nat (Z.to_nat MAX_HANDLES))) as [Hin | Hout].
    + rewrite Hcleared in Hs by lia. discriminate.
    + rewrite Hkept in Hs by lia. exact (Hp j h Hj Hs Hr).
  - intros q s r Hin. apply Honly in Hin.
    destruct Hin as [(j & h & _ & _ & E) | (j & h & Hj & Hs & Hr & E)];
      [discriminate |].
    injection E as -> _. exact (Hp j h ltac:(lia) Hs Hr).
Qed.

Lemma call_inv os w c : bridge_inv w -> bridge_inv (snd (call c os w)).
Proof.
  intros Hinv. destruct c as [path size | b i d ram cores ports | id | id | id |];
    cbn [call].
  - pose proof (nativeCreateDisk_inv os w path size Hinv) as H.
    unfold bind. destruct (nativeCreateDisk path size os w) as [[x | | x] w']; exact H.
  - pose proof (nativeStart_inv os w b i d ram cores ports Hinv) as H.
    unfold bind. destruct (nativeStart b i d ram cores ports os w) as [[x | | x] w'];
      exact H.
  - pose proof (nativeStop_inv os w id Hinv) as H.
    unfold bind. destruct (nativeStop id os w) as [[x | | x] w']; exact H.
  - pose proof (nativeGetStatus_inv os w id Hinv) as H.
    unfold bind. destruct (nativeGetStatus id os w) as [[x | | x] w']; exact H.
  - apply nativeCleanup_inv. exact Hinv.
  - apply JNI_OnUnload_inv. exact Hinv.
Qed.

(** X11.  Through any sequence of calls, under any operating system, in
    the parent and in a forked child alike, three things stay true once
    they are: the table has four slots; every record marked running
    carries a positive process id; and every signal the bridge has sent
    went to a positive process id, never to 0 or below, where [kill]
    would reach a whole process group or every process. *)
Theorem bridge_invariant (os : OS) (cs : list api_call) (w : World) :
  bridge_inv w -> bridge_inv (snd (run_calls cs os w)).
Proof.
  revert w. induction cs as [| c cs IH]; intros w Hinv; [exact Hinv |].
  cbn [run_calls]. unfold bind.
  pose proof (call_inv os w c Hinv) as Hc.
  destruct (call c os w) as [[x | | x] w1]; cbn [snd] in *.
  - apply IH. exact Hc.
  - exact Hc.
  - exact Hc.
Qed.

(** ** Create Disk Image: when it fails, and what tells sizes apart *)

(** X12.  Create Disk Image always returns and never touches the handle
    table.  It returns true exactly when the path string was obtained and
    the file could be opened.  When it returns false no file has changed
    and nothing was written: the only system call, if any, is the failed
    attempt to open the file.  Files other than the one named never
    change. *)
Theorem nativeCreateDisk_outcome (os : OS) (w : World) (path : option string)
    (size_mb : Z) :
  exists b w',
    nativeCreateDisk path size_mb os w = (Returns b, w') /\
    handles w' = handles w /\
    (b = true <-> exists p, path = Some p /\ os (trace w) (Fopen p "wb") <> 0) /\
    (b = false ->
     files w' = files w /\
     (trace w' = trace w \/
      exists p, path = Some p /\ trace w' = trace w ++ [(Fopen p "wb", 0)])) /\
    (forall p other, path = Some p -> other <> p ->
                     files w' !! other = files w !! other).
Proof.
  destruct path as [p |].
  - destruct (Z.eq_dec (os (trace w) (Fopen p "wb")) 0) as [E | E].
    + exists false. eexists. split.
      { unfold nativeCreateDisk, bind, fopen. rewrite E. reflexivity. }
      split; [reflexivity |].
      split.
      { split; [discriminate |]. intros (p' & Ep & Hne). injection Ep as <-.
        contradiction. }
      split.
      { intros _. split; [reflexivity |]. right. exists p. split; reflexivity. }
      intros p' other _ _. reflexivity.
    + destruct (nativeCreateDisk_run os w p size_mb E)
        as (w' & f & c & t & content & Hrun & Hh & Hfiles & _).
      exists true, w'. split; [exact Hrun |]. split; [exact Hh |].
      split; [split; [intros _; exists p; split; [reflexivity | exact E] | reflexivity] |].
      split; [discriminate |].
      intros p' other Ep Hne. injection Ep as <-.
      rewrite Hfiles. apply lookup_insert_ne. congruence.
  - exists false, w. split; [reflexivity |]. split; [reflexivity |].
    split; [split; [discriminate | intros (p & Ep & _); discriminate] |].
    split; [intros _; split; [reflexivity | left; reflexivity] |].
    intros p other Ep. discriminate.
Qed.

(** X13.  The header tells the requested sizes apart: two 32-bit sizes,
    negative ones included, that give the same header are the same size,
    so the size asked for can always be recovered from the file. *)
Theorem qcow2_header_injective (a b : Z) :
  - 2 ^ 31 <= a < 2 ^ 31 ->
  - 2 ^ 31 <= b < 2 ^ 31 ->
  qcow2_header a = qcow2_header b ->
  a = b.
Proof.
  intros Ha Hb Heq.
  rewrite !qcow2_header_spec in Heq.
  apply (f_equal (fun hdr => be_value (take 8 (drop 24 hdr)))) in Heq.
  unfold spec_header in Heq.
  change (be_value (be_bytes 8 (a * 1048576)) = be_value (be_bytes 8 (b * 1048576)))
    in Heq.
  rewrite !be_value_be_bytes in Heq.
  change (256 ^ Z.of_nat 8) with (2 ^ 64) in Heq.
  assert (Hdiv : ((a - b) * 1048576) mod 2 ^ 64 = 0).
  { replace ((a - b) * 1048576) with (a * 1048576 - b * 1048576) by lia.
    rewrite Zminus_mod, Heq, Z.sub_diag. reflexivity. }
  apply Z.mod_divide in Hdiv; [| lia].
  destruct Hdiv as [k Hk].
  assert (k = 0) by lia. lia.
Qed.

(** ** The unload hook, then a fresh start *)

(** X14.  After the unload hook the bridge is as new: with the allocator
    and the fork succeeding, the Start Process calls that follow return
    the handle ids 0, 1, 2 and 3 in turn, whatever the table held before,
    and a fifth returns -1. *)
Theorem unload_then_start_afresh (os : OS) (w : World) (a1 a2 a3 a4 a5 : StartArgs) :
  os_level_success os ->
  wf_table (handles w) ->
  exists w0 w1 w2 w3 w4 w5,
    JNI_OnUnload os w = (Returns tt, w0) /\
    start a1 os w0 = (Returns (JLong 0), w1) /\
    start a2 os w1 = (Returns (JLong 1), w2) /\
    start a3 os w2 = (Returns (JLong 2), w3) /\
    start a4 os w3 = (Returns (JLong 3), w4) /\
    start a5 os w4 = (Returns (JLong (-1)), w5).
Proof.
  intros Hos Hwf.
  destruct (unload_loop_spec os (Z.to_nat MAX_HANDLES) 0 w ltac:(lia))
    as (w0 & t & Hrun & Hlen & _ & _ & Hcleared & _).
  assert (Hempty : handles w0 = empty_table).
  { apply table_of_empty_slots.
    - unfold wf_table in *. rewrite Hlen. exact Hwf.
    - intros j Hj. apply Hcleared. unfold MAX_HANDLES in *. lia. }
  destruct (four_starts_then_full os w0 a1 a2 a3 a4 a5 Hos Hempty)
    as (w1 & w2 & w3 & w4 & w5 & H).
  exists w0, w1, w2, w3, w4, w5. split; [exact Hrun | exact H].
Qed.

(** ** Worked instances of the further properties *)

Lemma full_world_handle_2 :
  get_handle (handles full_world) 2 = Some (stopped (started 13)).
Proof. reflexivity. Qed.

Lemma full_world_occupied : occupied (handles full_world) 0 MAX_HANDLES.
Proof.
  intros j Hj. unfold MAX_HANDLES in Hj.
  assert (j = 0 \/ j = 1 \/ j = 2 \/ j = 3) as [-> | [-> | [-> | ->]]] by lia;
    discriminate.
Qed.

Lemma initial_world_inv : bridge_inv initial_world.
Proof.
  split; [reflexivity |]. split.
  - intros j h Hj Hs Hr. unfold slot, initial_world, empty_table in Hs.
    cbn [handles] in Hs.
    destruct (replicate 4 None !! Z.to_nat j) as [o |] eqn:E; [| discriminate].
    apply lookup_replicate in E. destruct E as [-> _]. discriminate.
  - intros q s r [].
Qed.

Lemma nativeCleanup_valid_witness :
  get_handle (handles demo_world) 0 = Some demo_handle /\
  exists w',
    nativeCleanup 0 os_granting demo_world = (Returns tt, w') /\
    get_handle (handles w') 0 = None /\
    trace w' = [(Kill 4242 SIGKILL, 0); (Waitpid 4242 0, 0); (Free 0, 0)].
Proof.
  assert (Hh : get_handle (handles demo_world) 0 = Some demo_handle) by reflexivity.
  split; [exact Hh |].
  destruct (nativeCleanup_valid os_granting demo_world 0 demo_handle Hh)
    as (w' & t & f & Hrun & Hgone & _).
  exists w'. split; [exact Hrun |]. split; [exact Hgone |].
  replace w' with (snd (nativeCleanup 0 os_granting demo_world))
    by (rewrite Hrun; reflexivity).
  reflexivity.
Defined.

Lemma cleanup_makes_handle_stale_witness :
  get_handle (handles demo_world) 0 = Some demo_handle /\
  exists w',
    nativeCleanup 0 os_granting demo_world = (Returns tt, w') /\
    nativeCleanup 0 os_granting w' = (Returns tt, w') /\
    nativeStop 0 os_granting w' = (Returns false, w') /\
    nativeGetStatus 0 os_granting w' = (Returns (-1), w').
Proof.
  assert (Hh : get_handle (handles demo_world) 0 = Some demo_handle) by reflexivity.
  split; [exact Hh |].
  exact (cleanup_makes_handle_stale os_granting demo_world 0 demo_handle Hh).
Defined.

Lemma cleanup_then_start_reuses_slot_witness :
  os_level_success os_granting /\
  wf_table (handles full_world) /\
  get_handle (handles full_world) 2 = Some (stopped (started 13)) /\
  occupied (handles full_world) 0 2 /\
  exists w1 w2,
    nativeCleanup 2 os_granting full_world = (Returns tt, w1) /\
    start demo_args os_granting w1 = (Returns (JLong 2), w2).
Proof.
  assert (Hwf : wf_table (handles full_world)) by reflexivity.
  assert (Hocc : occupied (handles full_world) 0 2).
  { intros j Hj. apply full_world_occupied. unfold MAX_HANDLES. lia. }
  split; [exact os_granting_success |]. split; [exact Hwf |].
  split; [exact full_world_handle_2 |]. split; [exact Hocc |].
  destruct (cleanup_then_start_reuses_slot os_granting full_world 2 _ demo_args
              os_granting_success Hwf full_world_handle_2 Hocc)
    as (w1 & w2 & p & Hclean & Hstart & _).
  exists w1, w2. split; [exact Hclean | exact Hstart].
Defined.

Lemma JNI_OnUnload_sweeps_witness :
  wf_table (handles full_world) /\
  exists w',
    JNI_OnUnload os_granting full_world = (Returns tt, w') /\
    handles w' = empty_table /\
    map fst (trace w')
    = [Kill 11 SIGKILL; Free 0; Kill 12 SIGKILL; Free 1; Free 2;
       Kill 14 SIGKILL; Free 3].
Proof.
  assert (Hwf : wf_table (handles full_world)) by reflexivity.
  split; [exact Hwf |].
  destruct (JNI_OnUnload_sweeps os_granting full_world Hwf)
    as (w' & t & Hrun & Hempty & _).
  exists w'. split; [exact Hrun |]. split; [exact Hempty |].
  replace w' with (snd (JNI_OnUnload os_granting full_world))
    by (rewrite Hrun; reflexivity).
  reflexivity.
Defined.

Lemma nativeStart_keeps_handles_witness :
  wf_table (handles demo_world) /\
  exists o w',
    start demo_args os_granting demo_world = (o, w') /\
    slot (handles w') 0 = Some demo_handle.
Proof.
  assert (Hwf : wf_table (handles demo_world)) by reflexivity.
  split; [exact Hwf |].
  destruct (nativeStart_keeps_handles os_granting demo_world
              (Some (arg_binary demo_args)) (Some (arg_iso demo_args))
              (Some (arg_disk demo_args)) (Some (arg_ports demo_args))
              (arg_ram_mb demo_args) (arg_cpu_cores demo_args) Hwf)
    as (o & w' & t & Hrun & _ & _ & _ & _ & Hkeep).
  exists o, w'. split; [exact Hrun |].
  apply Hkeep; [lia | reflexivity].
Defined.

Lemma nativeStart_returns_valid_handle_witness :
  wf_table (handles demo_world) /\
  exists w' p,
    start demo_args os_granting demo_world = (Returns (JLong 1), w') /\
    get_handle (handles demo_world) 1 = None /\
    0 < p /\
    get_handle (handles w') 1 = Some (started p).
Proof.
  assert (Hwf : wf_table (handles demo_world)) by reflexivity.
  split; [exact Hwf |].
  destruct (nativeStart_returns_valid_handle os_granting demo_world
              (arg_binary demo_args) (arg_iso demo_args) (arg_disk demo_args)
              (arg_ports demo_args) (arg_ram_mb demo_args) (arg_cpu_cores demo_args)
              Hwf)
    as (o & w' & Hrun & _ & Hvalid).
  assert (Ho : o = Returns (JLong 1)).
  { change (fst (o, w') = Returns (JLong 1)). rewrite <- Hrun. reflexivity. }
  destruct (Hvalid 1 Ho ltac:(lia)) as (Hfree & p & Hp & _ & Hg & _).
  exists w', p. split; [rewrite <- Ho; exact Hrun |].
  split; [exact Hfree |]. split; [exact Hp | exact Hg].
Defined.

Lemma nativeGetStatus_never_blocks_witness :
  get_handle (handles demo_world) 0 = Some demo_handle /\
  running demo_handle <> 0 /\
  exists z w',
    nativeGetStatus 0 os_exited demo_world = (Returns z, w') /\
    z = 0 /\
    trace w' = [(Waitpid 4242 WNOHANG, 4242)] /\
    handles w' = <[Z.to_nat 0 := Some (stopped demo_handle)]> (handles demo_world).
Proof.
  assert (Hh : get_handle (handles demo_world) 0 = Some demo_handle) by reflexivity.
  assert (Hr : running demo_handle <> 0) by (simpl; lia).
  split; [exact Hh |]. split; [exact Hr |].
  destruct (nativeGetStatus_never_blocks os_exited demo_world 0)
    as (z & w' & t & Hrun & _ & Ht & _ & _ & Hrunning).
  destruct (Hrunning demo_handle Hh Hr) as (r & Er & Et & _ & Hexit & _).
  assert (Hr0 : r <> 0) by (rewrite Er; simpl; lia).
  assert (Hrp : r = pid demo_handle) by (rewrite Er; reflexivity).
  destruct (Hexit Hr0 Hrp) as [Hz Hhs].
  exists z, w'. split; [exact Hrun |]. split; [exact Hz |].
  split; [rewrite Ht, Et, Er; reflexivity | exact Hhs].
Defined.

Lemma nativeStart_full_table_witness :
  occupied (handles full_world) 0 MAX_HANDLES /\
  start demo_args os_granting full_world = (Returns (JLong (-1)), full_world).
Proof.
  split; [exact full_world_occupied |].
  exact (nativeStart_full_table os_granting full_world _ _ _ _ _ _ full_world_occupied).
Defined.

Lemma stop_then_status_witness :
  get_handle (handles demo_world) 0 = Some demo_handle /\
  exists w',
    nativeStop 0 os_exit_at_third_poll demo_world = (Returns true, w') /\
    nativeGetStatus 0 os_exit_at_third_poll w' = (Returns 0, w') /\
    nativeStop 0 os_exit_at_third_poll w' = (Returns true, w').
Proof.
  assert (Hh : get_handle (handles demo_world) 0 = Some demo_handle) by reflexivity.
  split; [exact Hh |].
  destruct (stop_then_status os_exit_at_third_poll demo_world 0 demo_handle Hh)
    as (w' & H1 & _ & H2 & H3).
  exists w'. split; [exact H1 |]. split; [exact H2 | exact H3].
Defined.

Lemma bridge_invariant_witness :
  bridge_inv initial_world /\
  bridge_inv (snd (run_calls demo_session os_granting initial_world)).
Proof.
  split; [exact initial_world_inv |].
  exact (bridge_invariant os_granting demo_session initial_world initial_world_inv).
Defined.

Lemma qcow2_header_injective_witness :
  - 2 ^ 31 <= 1024 < 2 ^ 31 /\
  - 2 ^ 31 <= 1024 < 2 ^ 31 /\
  qcow2_header 1024 = qcow2_header 1024 /\
  1024 = 1024.
Proof.
  assert (Ha : - 2 ^ 31 <= 1024 < 2 ^ 31) by lia.
  split; [exact Ha |]. split; [exact Ha |]. split; [reflexivity |].
  exact (qcow2_header_injective 1024 1024 Ha Ha eq_refl).
Defined.

Lemma unload_then_start_afresh_witness :
  os_level_success os_granting /\
  wf_table (handles full_world) /\
  exists w0 w1,
    JNI_OnUnload os_granting full_world = (Returns tt, w0) /\
    start demo_args os_granting w0 = (Returns (JLong 0), w1).
Proof.
  assert (Hwf : wf_table (handles full_world)) by reflexivity.
  split; [exact os_granting_success |]. split; [exact Hwf |].
  destruct (unload_then_start_afresh os_granting full_world
              demo_args demo_args demo_args demo_args demo_args
              os_granting_success Hwf)
    as (w0 & w1 & _ & _ & _ & _ & Hrun & Hstart & _).
  exists w0, w1. split; [exact Hrun | exact Hstart].
Defined.
